(** * roko: pause sequences, the Backoff iterator and the Retry drivers

    A shallow embedding of the pause sequences of [sequence.go], of the
    [Backoff] iterator and of the [Retry] drivers of buildkite/roko (v2).

    Go's push iterators ([iter.Seq], a function that takes the loop body as
    a [yield] callback) are kept as they are written: a sequence is a
    function of its [yield].  The variables a loop body updates are passed
    through it explicitly, what the package does to the outside (waiting
    on a timer) goes through a [World], the random source is a parameter,
    and loops that Go does not bound ([for yield(dur) {}]) take fuel. *)

From Stdlib Require Import ZArith List String Bool Arith Lia.
Import ListNotations.
Local Open Scope Z_scope.

(* ================================================================= *)
(** ** Durations and errors *)

(** [time.Duration] is an int64 count of nanoseconds. *)
Definition Duration : Type := Z.

Definition Nanosecond : Duration := 1.
Definition Millisecond : Duration := 1000000.
Definition Second : Duration := 1000000000.

(** [const SentinelDuration = time.Duration(-1)] *)
Definition SentinelDuration : Duration := -1.

(** The dynamic types an [error] value has in this package and its tests:
    [errors.New] values, the package's own [unrecoverableErr] string type,
    [fmt.Errorf] with a [%w] verb, and the two errors a context reports. *)
Inductive Err : Type :=
| errorString (s : string)
| unrecoverableErr (s : string)
| wrapError (msg : string) (inner : Err)
| Canceled
| DeadlineExceeded.

(** A Go [error] is an interface value; [None] is [nil]. *)
Definition error : Type := option Err.
Definition nil : error := None.

(** [const ErrUnrecoverable = unrecoverableErr("unrecoverable")] *)
Definition ErrUnrecoverable : Err := unrecoverableErr "unrecoverable".

(** [err == target] on interface values.  [errors.New] and [fmt.Errorf]
    return fresh pointers, which are equal to no other value; the string
    type and the context errors compare by value. *)
Definition Err_eqb (e target : Err) : bool :=
  match e, target with
  | unrecoverableErr a, unrecoverableErr b => String.eqb a b
  | Canceled, Canceled => true
  | DeadlineExceeded, DeadlineExceeded => true
  | _, _ => false
  end.

(** The chain walk of [errors.Is] below a non-nil error. *)
Fixpoint Err_Is (e target : Err) : bool :=
  Err_eqb e target ||
  match e with
  | wrapError _ inner => Err_Is inner target
  | _ => false
  end.

(** [errors.Is(err, target)] for a non-nil [target]. *)
Definition errors_Is (err : error) (target : Err) : bool :=
  match err with
  | None => false
  | Some e => Err_Is e target
  end.

Definition is_nil (err : error) : bool :=
  match err with None => true | Some _ => false end.

(* ================================================================= *)
(** ** The world: timers *)

Inductive Event : Type :=
| Wait (d : Duration)         (* [<-time.After(d)] was taken by the select *)
| Interrupted (d : Duration)  (* [<-ctx.Done()] was taken while waiting for [d] *)
| Pull (d : Duration).        (* a traced generator produced [d] *)

Record World : Type := mkWorld {
  trace : list Event   (* what happened so far, oldest first *)
}.

Definition log (e : Event) (w : World) : World :=
  {| trace := trace w ++ [e] |}.

Definition logs (es : list Event) (w : World) : World :=
  {| trace := trace w ++ es |}.

Definition World0 : World := {| trace := [] |}.

(** A [context.Context], as far as this package looks at it.  [Done ctx i]
    is the choice of the select statement of iteration [i]: [true] when it
    takes the [<-ctx.Done()] case, [false] when it takes the timer.  A
    Done channel that is nil or still open when the timer fires is never
    taken; one that is closed before the timer fires always is.  [Err_of]
    is what [ctx.Err()] would report; the package never asks for it. *)
Record Context : Type := mkContext {
  Done : nat -> bool;
  Err_of : error
}.

(** [context.Background()]: its Done channel is nil and is never ready. *)
Definition Background : Context := {| Done := fun _ => false; Err_of := nil |}.

(* ================================================================= *)
(** ** Push iterators *)

(** What a call of [yield] does: return [true], return [false], or panic. *)
Inductive Ctl : Type := Next | Break | Panic.

(** How a call of an iterator ends. [Starved] is the fuel running out. *)
Inductive Status : Type := Returned | Panicked | Starved.

Record Result (S : Type) : Type := mkResult {
  status : Status;
  final : S;
  world : World
}.
Arguments mkResult {S} _ _ _.
Arguments status {S} _.
Arguments final {S} _.
Arguments world {S} _.

Definition map_final {S S' : Type} (f : S -> S') (r : Result S) : Result S' :=
  mkResult (status r) (f (final r)) (world r).

(** The status with which a function ends when its last statement is a
    call of [yield] whose result it does not look at. *)
Definition status_of (c : Ctl) : Status :=
  match c with Panic => Panicked | _ => Returned end.

(** [func(T) bool], over the variables [S] of the loop body. *)
Definition Yield (A S : Type) : Type := A -> S -> World -> Ctl * S * World.

(** [iter.Seq[A]] *)
Definition Seq (A : Type) : Type :=
  forall S : Type, Yield A S -> S -> World -> nat -> Result S.

(** [func(int, *time.Duration) bool]: the body also returns what it left
    in the pointed-to duration. *)
Definition Yield2 (S : Type) : Type :=
  nat -> Duration -> S -> World -> Ctl * Duration * S * World.

(** [iter.Seq2[int, *time.Duration]] *)
Definition Seq2 : Type :=
  forall S : Type, Yield2 S -> S -> World -> nat -> Result S.

(* ================================================================= *)
(** ** sequence.go *)

(** [[
func Const(dur time.Duration) iter.Seq[time.Duration] {
	return func(yield func(time.Duration) bool) {
		for yield(dur) {
		}
	}
}
]] *)
Fixpoint Const (dur : Duration) (S : Type) (yield : Yield Duration S)
    (s : S) (w : World) (fuel : nat) {struct fuel} : Result S :=
  match fuel with
  | O => mkResult Starved s w
  | Datatypes.S fuel' =>
      match yield dur s w with
      | (Next, s', w') => Const dur S yield s' w' fuel'
      | (Break, s', w') => mkResult Returned s' w'
      | (Panic, s', w') => mkResult Panicked s' w'
      end
  end.

(** [rand.N(n)] of math/rand/v2 panics for [n <= 0] and otherwise returns
    a number of the half-open interval [[0, n)]. The numbers themselves are
    the parameter [randN]: [randN k n] is what the [k]-th call made by a
    traversal returns when it is asked for a number below [n]. *)
Definition rand_N (randN : nat -> Z -> Z) (k : nat) (n : Z) : option Z :=
  if n <=? 0 then None else Some (randN k n).

(** [[
func Jitter(seq iter.Seq[time.Duration]) iter.Seq[time.Duration] {
	return func(yield func(time.Duration) bool) {
		for nw := range seq {
			if !yield(rand.N(nw)) {
				return
			}
		}
	}
}
]]
    The body's variables are the number [k] of calls of [rand.N] so far
    and those of [yield]. *)
Definition Jitter_body (randN : nat -> Z -> Z) {S : Type}
    (yield : Yield Duration S) : Yield Duration (nat * S) :=
  fun nw '(k, s) w =>
    match rand_N randN k nw with
    | None => (Panic, (k, s), w)
    | Some r =>
        let '(c, s', w') := yield r s w in
        (c, (Datatypes.S k, s'), w')
    end.

Definition Jitter (randN : nat -> Z -> Z) (seq : Seq Duration) : Seq Duration :=
  fun S yield s w fuel =>
    map_final snd (seq (nat * S)%type (Jitter_body randN yield) (O, s) w fuel).

(** [[
func Limit(n int, seq iter.Seq[time.Duration]) iter.Seq[time.Duration] {
	return func(yield func(time.Duration) bool) {
		for nw := range seq {
			if n <= 0 {
				return
			}
			n--
			if !yield(nw) {
				return
			}
		}
	}
}
]]
    The body's variables are [n] and those of [yield].  ([n] belongs to the
    call of [Limit], not to the traversal; this is the first traversal.) *)
Definition Limit_body {S : Type} (yield : Yield Duration S)
    : Yield Duration (Z * S) :=
  fun nw '(n, s) w =>
    if n <=? 0 then (Break, (n, s), w)
    else
      let n := n - 1 in
      let '(c, s', w') := yield nw s w in
      (c, (n, s'), w').

Definition Limit (n : Z) (seq : Seq Duration) : Seq Duration :=
  fun S yield s w fuel =>
    map_final snd (seq (Z * S)%type (Limit_body yield) (n, s) w fuel).

(* ================================================================= *)
(** ** The Backoff iterator *)

(** [[
func appendSentiel(seq iter.Seq[time.Duration]) iter.Seq[time.Duration] {
	return func(yield func(time.Duration) bool) {
		for nw := range seq {
			if !yield(nw) {
				return
			}
		}
		yield(SentinelDuration)
	}
}
]]
    The flag of the body says that it left through [return]. *)
Definition appendSentiel_body {S : Type} (yield : Yield Duration S)
    : Yield Duration (bool * S) :=
  fun nw '(_, s) w =>
    let '(c, s', w') := yield nw s w in
    match c with
    | Next => (Next, (false, s'), w')
    | Break => (Break, (true, s'), w')
    | Panic => (Panic, (false, s'), w')
    end.

(** What follows the loop, [r] being how the loop ended. *)
Definition appendSentiel_end {S : Type} (yield : Yield Duration S)
    (r : Result (bool * S)) : Result S :=
  match status r, fst (final r) with
  | Returned, false =>
      let '(c, s', w') := yield SentinelDuration (snd (final r)) (world r) in
      mkResult (status_of c) s' w'
  | _, _ => map_final snd r
  end.

Definition appendSentiel (seq : Seq Duration) : Seq Duration :=
  fun S yield s w fuel =>
    appendSentiel_end yield
      (seq (bool * S)%type (appendSentiel_body yield) (false, s) w fuel).

(** [[
func Backoff(ctx context.Context, pauseSeq iter.Seq[time.Duration]) iter.Seq2[int, *time.Duration] {
	return func(yield func(int, *time.Duration) bool) {
		i := 0
		for nw := range appendSentiel(pauseSeq) {
			if !yield(i, &nw) {
				return
			}
			if nw < 0 {
				return
			}
			select {
			case <-ctx.Done():
				return
			case <-time.After(nw):
			}
			i++
		}
	}
}
]] *)
Definition Backoff_body (ctx : Context) {S : Type} (yield : Yield2 S)
    : Yield Duration (nat * S) :=
  fun nw '(i, s) w =>
    let '(c, nw, s', w') := yield i nw s w in
    match c with
    | Panic => (Panic, (i, s'), w')
    | Break => (Break, (i, s'), w')
    | Next =>
        if nw <? 0 then (Break, (i, s'), w')
        else if Done ctx i then (Break, (i, s'), log (Interrupted nw) w')
        else (Next, (Datatypes.S i, s'), log (Wait nw) w')
    end.

Definition Backoff (ctx : Context) (pauseSeq : Seq Duration) : Seq2 :=
  fun S yield s w fuel =>
    map_final snd
      (appendSentiel pauseSeq (nat * S)%type (Backoff_body ctx yield) (O, s) w fuel).

(* ================================================================= *)
(** ** The Retry drivers *)

(** One call of the operation [f(i, nw)]: the values it returns, the
    error it returns, what it leaves in [*nw], and the state of whatever
    it has captured. *)
Record Attempt (T U : Type) : Type := mkAttempt {
  value : T;
  err : error;
  next_wait : Duration;
  captured : U
}.
Arguments mkAttempt {T U} _ _ _ _.
Arguments value {T U} _.
Arguments err {T U} _.
Arguments next_wait {T U} _.
Arguments captured {T U} _.

(** [func(int, *time.Duration) (T, error)], over its captured state [U]. *)
Definition Op (T U : Type) : Type := nat -> Duration -> U -> Attempt T U.

(** The variables of [Retry1]: [t] and [err], the operands of a [return]
    inside the loop, and the captured state of [f]. *)
Record Vars (T U : Type) : Type := mkVars {
  var_t : T;
  var_err : error;
  var_ret : option (T * error);
  var_u : U
}.
Arguments mkVars {T U} _ _ _ _.
Arguments var_t {T U} _.
Arguments var_err {T U} _.
Arguments var_ret {T U} _.
Arguments var_u {T U} _.

(** [[
func Retry1[T any](ctx context.Context, pauseSeq iter.Seq[time.Duration], f func(int, *time.Duration) (T, error)) (T, error) {
	var t T
	var err error
	for i, nw := range Backoff(ctx, pauseSeq) {
		t, err = f(i, nw)
		if errors.Is(err, ErrUnrecoverable) {
			return t, err
		}
		if err != nil {
			continue
		}
		return t, nil
	}
	return t, err
}
]] *)
Definition Retry1_body {T U : Type} (f : Op T U) : Yield2 (Vars T U) :=
  fun i nw v w =>
    let a := f i nw (var_u v) in
    let t := value a in
    let err := err a in
    if errors_Is err ErrUnrecoverable then
      (Break, next_wait a, mkVars t err (Some (t, err)) (captured a), w)
    else if negb (is_nil err) then
      (Next, next_wait a, mkVars t err None (captured a), w)
    else
      (Break, next_wait a, mkVars t err (Some (t, nil)) (captured a), w).

Definition Retry1_return {T U : Type} (v : Vars T U) : T * error * U :=
  match var_ret v with
  | Some (t, err) => (t, err, var_u v)
  | None => (var_t v, var_err v, var_u v)
  end.

(** [zero] is the zero value of [T], what [var t T] holds. *)
Definition Retry1 {T U : Type} (zero : T) (ctx : Context)
    (pauseSeq : Seq Duration) (f : Op T U) (u : U) (w : World) (fuel : nat)
    : Result (T * error * U) :=
  map_final Retry1_return
    (Backoff ctx pauseSeq (Vars T U) (Retry1_body f) (mkVars zero nil None u) w fuel).

(** [Retry0], [Retry2] and [Retry3] repeat the text of [Retry1] with no,
    two and three values next to the error; they are [Retry1] at the empty
    tuple, at pairs and at triples. *)
Definition Retry0 {U : Type} (ctx : Context) (pauseSeq : Seq Duration)
    (f : Op unit U) (u : U) (w : World) (fuel : nat) : Result (error * U) :=
  map_final (fun '(_, err, u') => (err, u')) (Retry1 tt ctx pauseSeq f u w fuel).

Definition Retry2 {T1 T2 U : Type} (zero1 : T1) (zero2 : T2) (ctx : Context)
    (pauseSeq : Seq Duration) (f : Op (T1 * T2) U) (u : U) (w : World)
    (fuel : nat) : Result (T1 * T2 * error * U) :=
  map_final (fun '((t1, t2), err, u') => (t1, t2, err, u'))
    (Retry1 (zero1, zero2) ctx pauseSeq f u w fuel).

Definition Retry3 {T1 T2 T3 U : Type} (zero1 : T1) (zero2 : T2) (zero3 : T3)
    (ctx : Context) (pauseSeq : Seq Duration) (f : Op (T1 * T2 * T3) U)
    (u : U) (w : World) (fuel : nat) : Result (T1 * T2 * T3 * error * U) :=
  map_final (fun '((t1, t2, t3), err, u') => (t1, t2, t3, err, u'))
    (Retry1 (zero1, zero2, zero3) ctx pauseSeq f u w fuel).

(* ================================================================= *)
(** ** What a sequence yields *)

(** The elements of a sequence, by position; [None] where it has ended. *)
Definition Elems (A : Type) : Type := nat -> option A.

(** [for x := range elems[i:] { if !yield(x) { return } }]: the loop a
    well-behaved iterator runs for its consumer. *)
Fixpoint range_from {A : Type} (g : Elems A) (i : nat) (S : Type)
    (yield : Yield A S) (s : S) (w : World) (fuel : nat) {struct fuel}
    : Result S :=
  match fuel with
  | O => mkResult Starved s w
  | Datatypes.S fuel' =>
      match g i with
      | None => mkResult Returned s w
      | Some x =>
          match yield x s w with
          | (Next, s', w') => range_from g (Datatypes.S i) S yield s' w' fuel'
          | (Break, s', w') => mkResult Returned s' w'
          | (Panic, s', w') => mkResult Panicked s' w'
          end
      end
  end.

(** [seq] yields the elements [g]: whatever the consumer, once the loop
    over [g] ends, [seq] ends in the same way given enough fuel. *)
Definition yields {A : Type} (seq : Seq A) (g : Elems A) : Prop :=
  forall (S : Type) (yield : Yield A S) (s : S) (w : World) (fuel : nat),
    status (range_from g O S yield s w fuel) <> Starved ->
    exists fuel0, forall fuel', (fuel0 <= fuel')%nat ->
      seq S yield s w fuel' = range_from g O S yield s w fuel.

(** A finite sequence with the elements [l]; a sequence that never ends. *)
Definition yields_list {A : Type} (seq : Seq A) (l : list A) : Prop :=
  yields seq (nth_error l).

Definition forever {A : Type} (g : Elems A) : Prop :=
  forall i, g i <> None.

(** No position before [i] is the end. *)
Fixpoint live {A : Type} (g : Elems A) (i : nat) : bool :=
  match i with
  | O => true
  | Datatypes.S j =>
      live g j && match g j with Some _ => true | None => false end
  end.

(** The elements of [g] and, where [g] ends, the sentinel once. *)
Definition with_sentinel (g : Elems Duration) : Elems Duration :=
  fun i =>
    if live g i then
      match g i with
      | Some d => Some d
      | None => Some SentinelDuration
      end
    else None.

(** The first [n] elements of [g]. *)
Definition first_n (n : Z) {A : Type} (g : Elems A) : Elems A :=
  fun i => if Z.of_nat i <? n then g i else None.

(** What [Jitter] makes of [g] with the random numbers [randN]. *)
Definition jittered (randN : nat -> Z -> Z) (g : Elems Duration)
    : Elems Duration :=
  fun i => option_map (randN i) (g i).

(** The elements of [g] before position [k], up to its end. *)
Fixpoint prefix {A : Type} (g : Elems A) (k : nat) : list A :=
  match k with
  | O => []
  | Datatypes.S j =>
      if live g k then
        prefix g j ++ match g j with Some x => [x] | None => [] end
      else prefix g j
  end.

(* ================================================================= *)
(** ** Harness: a slice as a sequence, observers *)

(** [slices.Values(l)] *)
Fixpoint Values {A : Type} (l : list A) (S : Type) (yield : Yield A S)
    (s : S) (w : World) (fuel : nat) {struct l} : Result S :=
  match l with
  | [] => mkResult Returned s w
  | x :: l' =>
      match yield x s w with
      | (Next, s', w') => Values l' S yield s' w' fuel
      | (Break, s', w') => mkResult Returned s' w'
      | (Panic, s', w') => mkResult Panicked s' w'
      end
  end.

(** A generator with a side effect: it records every element it produces
    before it hands it on.
    [for x := range seq { pulled = append(pulled, x); if !yield(x) { return } }] *)
Definition Traced (seq : Seq Duration) : Seq Duration :=
  fun S yield s w fuel =>
    seq S (fun x s w => yield x s (log (Pull x) w)) s w fuel.

(** [for x := range seq { out = append(out, x) }] *)
Definition collect {A : Type} (seq : Seq A) (w : World) (fuel : nat)
    : Result (list A) :=
  seq (list A) (fun x out w => (Next, out ++ [x], w)) [] w fuel.

(** The same, where the loop body records what it is given and then runs
    an arbitrary consumer. *)
Definition recording {A S : Type} (yield : Yield A S) : Yield A (list A * S) :=
  fun x '(out, s) w =>
    let '(c, s', w') := yield x s w in (c, (out ++ [x], s'), w').

(** An operation that counts its invocations. *)
Definition counting {T U : Type} (f : Op T U) : Op T (nat * U) :=
  fun i nw '(n, u) =>
    let a := f i nw u in
    mkAttempt (value a) (err a) (next_wait a) (Datatypes.S n, captured a).

(** A loop body over [Backoff] that records the index and the duration it
    is given, and then runs an arbitrary body. *)
Definition recording2 {S : Type} (yield : Yield2 S)
    : Yield2 (list (nat * Duration) * S) :=
  fun i nw '(seen, s) w =>
    let '(c, nw', s', w') := yield i nw s w in
    (c, nw', (seen ++ [(i, nw)], s'), w').

(** [for i, nw := range Backoff(ctx, seq) { seen = append(seen, (i, *nw)) }] *)
Definition watch : Yield2 (list (nat * Duration)) :=
  fun i nw seen w => (Next, nw, seen ++ [(i, nw)], w).

(* ================================================================= *)
(** ** The calls of an operation, one after the other *)

(** The duration the handle holds when iteration [j] starts. *)
Definition handle_at (g : Elems Duration) (j : nat) : Duration :=
  match g j with Some d => d | None => SentinelDuration end.

(** The captured state before call number [j] (from 0), and that call. *)
Fixpoint state_before {T U : Type} (f : Op T U) (g : Elems Duration)
    (u : U) (j : nat) : U :=
  match j with
  | O => u
  | Datatypes.S j' => captured (f j' (handle_at g j') (state_before f g u j'))
  end.

Definition attempt {T U : Type} (f : Op T U) (g : Elems Duration)
    (u : U) (j : nat) : Attempt T U :=
  f j (handle_at g j) (state_before f g u j).

(** An error that makes the driver go on: not nil, not unrecoverable. *)
Definition transient (e : error) : bool :=
  negb (is_nil e) && negb (errors_Is e ErrUnrecoverable).

(** Iteration [j] leads to a next one: the sequence has an element for
    it, the operation fails transiently and leaves no negative duration in
    the handle, and the timer wins the select. *)
Definition goes_on {T U : Type} (ctx : Context) (f : Op T U)
    (g : Elems Duration) (u : U) (j : nat) : bool :=
  match g j with Some _ => true | None => false end
  && transient (err (attempt f g u j))
  && (0 <=? next_wait (attempt f g u j))
  && negb (Done ctx j).

(** The waits of the iterations before [k]. *)
Definition waits {T U : Type} (f : Op T U) (g : Elems Duration) (u : U)
    (k : nat) : list Event :=
  map (fun j => Wait (next_wait (attempt f g u j))) (seq O k).

(** The variables of [Retry1] when iteration [j] starts. *)
Definition vars_before {T U : Type} (zero : T) (f : Op T U)
    (g : Elems Duration) (u : U) (j : nat) : Vars T U :=
  match j with
  | O => mkVars zero nil None u
  | Datatypes.S j' =>
      let a := attempt f g u j' in
      mkVars (value a) (err a) None (captured a)
  end.

(** What the select after a last iteration [k] leaves in the trace: it is
    reached when the operation failed transiently and the handle is not
    negative. *)
Definition last_event {T U : Type} (ctx : Context) (f : Op T U)
    (g : Elems Duration) (u : U) (k : nat) : list Event :=
  let a := attempt f g u k in
  if transient (err a) && (0 <=? next_wait a) then
    if Done ctx k then [Interrupted (next_wait a)] else [Wait (next_wait a)]
  else [].

(** A pair ([i], [d]) that [Backoff] may give to its loop body when the
    sequence has the elements [l]. *)
Definition exposed (l : list Duration) (p : nat * Duration) : Prop :=
  nth_error l (fst p) = Some (snd p)
  \/ (fst p = List.length l /\ snd p = SentinelDuration).

(** The body of the loop of [Retry1], as [appendSentiel] gets it. *)
Definition Retry1_loop {T U : Type} (ctx : Context) (f : Op T U)
    : Yield Duration (nat * Vars T U) :=
  Backoff_body ctx (Retry1_body f).

(* ================================================================= *)
(** ** Inputs of the examples *)

(** [errors.New("spurious error")] *)
Definition spurious : error := Some (errorString "spurious error").

(** [func(i int, nw *time.Duration) error { return errors.New("spurious error") }] *)
Definition always_failing : Op unit unit :=
  fun _ nw u => mkAttempt tt spurious nw u.

(** The operation of [ExampleRetry0_sentinel_next_wait]: it fails on every
    iteration and sets [*nw = roko.SentinelDuration] on iteration 3. *)
Definition sentinel_at_3 : Op unit unit :=
  fun i nw u =>
    if Nat.eqb i 3 then
      mkAttempt tt (Some (errorString "some other error")) SentinelDuration u
    else mkAttempt tt spurious nw u.

(** The operation of [ExampleRetry1_unrecoverable]. *)
Definition unrecoverable_at_3 : Op Z unit :=
  fun i nw u =>
    if Nat.ltb i 3 then mkAttempt (-1) spurious nw u
    else if Nat.eqb i 3 then
      mkAttempt (-2) (Some (wrapError "%w catastrophic error" ErrUnrecoverable)) nw u
    else mkAttempt 42 nil nw u.

(** The operation of [ExampleRetry1]. *)
Definition succeeds_at_3 : Op Z unit :=
  fun i nw u =>
    if Nat.ltb i 3 then mkAttempt (-1) spurious nw u else mkAttempt 42 nil nw u.

(** What decides the select statement of [Backoff] in iteration [i]:
    whether [ctx.Done()] is closed when the select is reached, whether the
    timer of [time.After(nw)] has fired by then (it has for a pause of 0),
    and, where that does not decide, which case is taken: when both
    channels are ready Go chooses one of them pseudo-randomly, when
    neither is ready the select takes the one that becomes ready first.
    [true] stands for the Done case. *)
Record Select : Type := mkSelect {
  done_ready : nat -> bool;
  timer_ready : nat -> bool;
  choice : nat -> bool
}.

Definition takes_Done (sel : Select) (i : nat) : bool :=
  match done_ready sel i, timer_ready sel i with
  | true, false => true
  | false, true => false
  | _, _ => choice sel i
  end.

(** The context whose selects are decided by [sel]. *)
Definition context_of (sel : Select) (e : error) : Context :=
  {| Done := takes_Done sel; Err_of := e |}.

(** [ctx, cancel := context.WithCancel(context.Background()); cancel()]
    before the driver is entered: the Done channel is closed at every
    select. *)
Definition cancelled_on_entry (sel : Select) : Prop :=
  forall i, done_ready sel i = true.

(** Cancelled on entry, with pauses long enough (1s, say) that no timer
    has fired when its select is reached: only Done is ready. *)
Definition long_pauses : Select :=
  {| done_ready := fun _ => true;
     timer_ready := fun _ => false;
     choice := fun _ => false |}.

(** Cancelled on entry, with pauses of 0: both channels are ready at
    every select; here Go takes the timer at the first select and Done at
    the second. *)
Definition zero_pauses : Select :=
  {| done_ready := fun _ => true;
     timer_ready := fun _ => true;
     choice := fun i => negb (Nat.eqb i 0) |}.

(** An operation like [f] that also returns the values [t]. *)
Definition returning {T U : Type} (t : T) (f : Op unit U) : Op T U :=
  fun i nw u =>
    let a := f i nw u in
    mkAttempt t (err a) (next_wait a) (captured a).

(** The number of waits in a trace that ran to their end. *)
Definition completed_waits (tr : list Event) : nat :=
  List.length
    (filter (fun e => match e with Wait _ => true | _ => false end) tr).

(** A random source for the examples. *)
Definition modulo_source : nat -> Z -> Z := fun k n => Z.of_nat k mod n.

(** What the select of a cancelled context leaves in the trace after the
    call [a]. *)
Definition interrupted_after {T U : Type} (a : Attempt T U) : list Event :=
  if transient (err a) && (0 <=? next_wait a) then [Interrupted (next_wait a)]
  else [].

(* ================================================================= *)
(** ** The rest of sequence.go *)

(** Arithmetic on [time.Duration] is int64 arithmetic: it wraps around. *)
Definition wrap64 (z : Z) : Z :=
  (z + 9223372036854775808) mod 18446744073709551616 - 9223372036854775808.

Definition int64 (z : Z) : Prop :=
  -9223372036854775808 <= z < 9223372036854775808.

(** [[
func Exp(initial time.Duration, factor float64) iter.Seq[time.Duration] {
	return func(yield func(time.Duration) bool) {
		cur := initial
		for yield(cur) {
			cur = time.Duration(float64(cur) * factor)
		}
	}
}
]]
    The floating-point product and its conversion back to a duration are
    the parameter [scale]: [scale cur] is
    [time.Duration(float64(cur) * factor)]. *)
Fixpoint Exp (scale : Duration -> Duration) (cur : Duration) (S : Type)
    (yield : Yield Duration S) (s : S) (w : World) (fuel : nat) {struct fuel}
    : Result S :=
  match fuel with
  | O => mkResult Starved s w
  | Datatypes.S fuel' =>
      match yield cur s w with
      | (Next, s', w') => Exp scale (scale cur) S yield s' w' fuel'
      | (Break, s', w') => mkResult Returned s' w'
      | (Panic, s', w') => mkResult Panicked s' w'
      end
  end.

(** [[
func IntervalJitter(lo, hi time.Duration, seq iter.Seq[time.Duration]) iter.Seq[time.Duration] {
	return func(yield func(time.Duration) bool) {
		for nw := range seq {
			nw += lo + rand.N(hi-lo)
			if !yield(max(nw, 0)) {
				return
			}
		}
	}
}
]] *)
Definition IntervalJitter_body (randN : nat -> Z -> Z) (lo hi : Duration)
    {S : Type} (yield : Yield Duration S) : Yield Duration (nat * S) :=
  fun nw '(k, s) w =>
    match rand_N randN k (wrap64 (hi - lo)) with
    | None => (Panic, (k, s), w)
    | Some r =>
        let nw := wrap64 (nw + wrap64 (lo + r)) in
        let '(c, s', w') := yield (Z.max nw 0) s w in
        (c, (Datatypes.S k, s'), w')
    end.

Definition IntervalJitter (randN : nat -> Z -> Z) (lo hi : Duration)
    (seq : Seq Duration) : Seq Duration :=
  fun S yield s w fuel =>
    map_final snd
      (seq (nat * S)%type (IntervalJitter_body randN lo hi yield) (O, s) w fuel).

(** [[
func FactorJitter(lo, hi float64, seq iter.Seq[time.Duration]) iter.Seq[time.Duration] {
	return func(yield func(time.Duration) bool) {
		for nw := range seq {
			f := lo + rand.Float64()*(hi-lo)
			nw := time.Duration(float64(nw) * f)
			if !yield(max(nw, 0)) {
				return
			}
		}
	}
}
]]
    The floating-point part is the parameter [times]: [times k nw] is
    [time.Duration(float64(nw) * f)] for the [f] of the [k]-th call of
    [rand.Float64] made by the traversal. *)
Definition FactorJitter_body (times : nat -> Duration -> Duration)
    {S : Type} (yield : Yield Duration S) : Yield Duration (nat * S) :=
  fun nw '(k, s) w =>
    let nw := times k nw in
    let '(c, s', w') := yield (Z.max nw 0) s w in
    (c, (Datatypes.S k, s'), w').

Definition FactorJitter (times : nat -> Duration -> Duration)
    (seq : Seq Duration) : Seq Duration :=
  fun S yield s w fuel =>
    map_final snd
      (seq (nat * S)%type (FactorJitter_body times yield) (O, s) w fuel).

(** [[
func Concat(seqs ...iter.Seq[time.Duration]) iter.Seq[time.Duration] {
	return func(yield func(time.Duration) bool) {
		for _, s := range seqs {
			for nw := range s {
				if !yield(nw) {
					return
				}
			}
		}
	}
}
]]
    The flag of the inner body says that it left through [return]. *)
Definition Concat_body {S : Type} (yield : Yield Duration S)
    : Yield Duration (bool * S) :=
  fun nw '(_, s) w =>
    let '(c, s', w') := yield nw s w in
    match c with
    | Next => (Next, (false, s'), w')
    | Break => (Break, (true, s'), w')
    | Panic => (Panic, (false, s'), w')
    end.

Fixpoint Concat (seqs : list (Seq Duration)) (S : Type)
    (yield : Yield Duration S) (s : S) (w : World) (fuel : nat) {struct seqs}
    : Result S :=
  match seqs with
  | [] => mkResult Returned s w
  | sq :: rest =>
      let r := sq (bool * S)%type (Concat_body yield) (false, s) w fuel in
      match status r, fst (final r) with
      | Returned, false => Concat rest S yield (snd (final r)) (world r) fuel
      | _, _ => map_final snd r
      end
  end.

(** One traversal of the iterator that [Limit(n, seq)] returned, with what
    it leaves in [n]: [n] is a variable of the call of [Limit], which the
    iterator decrements, so the next traversal of the same iterator starts
    from what this one left. *)
Definition Limit_traversal (n : Z) (seq : Seq Duration) (S : Type)
    (yield : Yield Duration S) (s : S) (w : World) (fuel : nat)
    : Result (Z * S) :=
  seq (Z * S)%type (Limit_body yield) (n, s) w fuel.

(** [it := Limit(n, seq); for x := range it { a = append(a, x) };
    for x := range it { b = append(b, x) }] *)
Definition Limit_twice (n : Z) (seq : Seq Duration) (w : World) (fuel : nat)
    : Result (list Duration * list Duration) :=
  let r1 :=
    Limit_traversal n seq _ (fun x out w => (Next, out ++ [x], w)) [] w fuel in
  match status r1 with
  | Returned =>
      let r2 :=
        Limit_traversal (fst (final r1)) seq _
          (fun x out w => (Next, out ++ [x], w)) [] (world r1) fuel in
      mkResult (status r2) (snd (final r1), snd (final r2)) (world r2)
  | st => mkResult st (snd (final r1), []) (world r1)
  end.

(** The elements of [Exp]: [initial], [scale initial], ... *)
Definition orbit (scale : Duration -> Duration) (initial : Duration)
    : Elems Duration :=
  fun i => Some (Nat.iter i scale initial).

(** What [IntervalJitter] and [FactorJitter] make of [g]. *)
Definition interval_jittered (randN : nat -> Z -> Z) (lo hi : Duration)
    (g : Elems Duration) : Elems Duration :=
  fun i =>
    option_map
      (fun d => Z.max (wrap64 (d + wrap64 (lo + randN i (wrap64 (hi - lo))))) 0)
      (g i).

Definition factor_jittered (times : nat -> Duration -> Duration)
    (g : Elems Duration) : Elems Duration :=
  fun i => option_map (fun d => Z.max (times i d) 0) (g i).

(** The elements [l] and then those of [g]. *)
Definition app_elems {A : Type} (l : list A) (g : Elems A) : Elems A :=
  fun i =>
    if (i <? List.length l)%nat then nth_error l i
    else g (i - List.length l)%nat.

(** The samples that [Jitter] draws for the durations [l], the first of
    them with the [k]-th random number. *)
Fixpoint jitter_list (randN : nat -> Z -> Z) (k : nat) (l : list Duration)
    : list Duration :=
  match l with
  | [] => []
  | d :: l' => randN k d :: jitter_list randN (Datatypes.S k) l'
  end.

(** The pairs that [Backoff] gives to its loop body in the iterations
    before [k], when nothing ends the loop earlier. *)
Definition pairs_before (g : Elems Duration) (k : nat)
    : list (nat * Duration) :=
  map (fun j => (j, handle_at g j)) (List.seq O k).

(** An operation that fails on every call and leaves the handle alone but
    on iteration 2, where it asks for a wait of 7ns. *)
Definition override_at_2 : Op unit unit :=
  fun i nw u =>
    if Nat.eqb i 2 then mkAttempt tt spurious 7 u else mkAttempt tt spurious nw u.

(** A context that is cancelled during the wait of iteration 2. *)
Definition cancelled_at_2 : Context :=
  {| Done := fun i => Nat.eqb i 2; Err_of := Some Canceled |}.

(* ================================================================= *)
(** * Proofs *)

(** ** Fuel *)

Lemma range_from_mono {A : Type} (g : Elems A) (S : Type) (yield : Yield A S) :
  forall fuel fuel' i s w,
    status (range_from g i S yield s w fuel) <> Starved ->
    (fuel <= fuel')%nat ->
    range_from g i S yield s w fuel' = range_from g i S yield s w fuel.
Proof.
  induction fuel as [|fuel IH]; intros fuel' i s w Hst Hle.
  - simpl in Hst. congruence.
  - destruct fuel' as [|fuel']; [lia|].
    simpl in *. destruct (g i) as [x|]; [|reflexivity].
    destruct (yield x s w) as [[[ | | ] s'] w']; try reflexivity.
    apply IH; [assumption | lia].
Qed.

Lemma range_from_ext {A : Type} (g g' : Elems A) (S : Type) (yield : Yield A S) :
  forall fuel i s w,
    (forall j, (i <= j)%nat -> g j = g' j) ->
    range_from g i S yield s w fuel = range_from g' i S yield s w fuel.
Proof.
  induction fuel as [|fuel IH]; intros i s w Hext; [reflexivity|].
  simpl. rewrite <- (Hext i) by lia.
  destruct (g i) as [x|]; [|reflexivity].
  destruct (yield x s w) as [[[ | | ] s'] w']; try reflexivity.
  apply IH. intros j Hj. apply Hext. lia.
Qed.

(** A sequence that runs the loop over [g] itself yields [g]. *)
Lemma yields_of_eq {A : Type} (seq : Seq A) (g : Elems A) :
  (forall S yield s w fuel,
      status (range_from g O S yield s w fuel) <> Starved ->
      seq S yield s w fuel = range_from g O S yield s w fuel) ->
  yields seq g.
Proof.
  intros H S yield s w fuel Hst. exists fuel. intros fuel' Hle.
  rewrite <- (range_from_mono g S yield fuel fuel' O s w Hst Hle).
  apply H. rewrite (range_from_mono g S yield fuel fuel' O s w Hst Hle).
  exact Hst.
Qed.

(** ** The generators *)

Lemma Const_range (dur : Duration) (S : Type) (yield : Yield Duration S) :
  forall fuel i s w,
    Const dur S yield s w fuel
    = range_from (fun _ => Some dur) i S yield s w fuel.
Proof.
  induction fuel as [|fuel IH]; intros i s w; [reflexivity|].
  simpl. destruct (yield dur s w) as [[[ | | ] s'] w']; try reflexivity.
  apply IH.
Qed.

Lemma Const_yields (dur : Duration) : yields (Const dur) (fun _ => Some dur).
Proof.
  apply yields_of_eq. intros S yield s w fuel _. apply Const_range.
Qed.

Lemma Values_range {A : Type} (S : Type) (yield : Yield A S) :
  forall (l : list A) fuel s w,
    status (range_from (nth_error l) O S yield s w fuel) <> Starved ->
    Values l S yield s w fuel = range_from (nth_error l) O S yield s w fuel.
Proof.
  induction l as [|x l IH]; intros fuel s w Hst.
  - destruct fuel; simpl in *; [congruence | reflexivity].
  - destruct fuel as [|fuel]; simpl in *; [congruence|].
    destruct (yield x s w) as [[[ | | ] s'] w'] eqn:Hy; try reflexivity.
    assert (Hsh : forall s w, range_from (nth_error (x :: l)) 1 S yield s w fuel
                 = range_from (nth_error l) 0 S yield s w fuel).
    { clear. revert l. generalize 0%nat.
      induction fuel as [|fuel IHf]; intros i l s w; [reflexivity|].
      simpl. destruct (nth_error l i) as [y|]; [|reflexivity].
      destruct (yield y s w) as [[[ | | ] s'] w']; try reflexivity.
      apply (IHf (Datatypes.S i)). }
    rewrite Hsh in *.
    rewrite <- (range_from_mono _ _ _ fuel (Datatypes.S fuel) O s' w' Hst) by lia.
    apply IH.
    rewrite (range_from_mono _ _ _ fuel (Datatypes.S fuel) O s' w' Hst) by lia.
    exact Hst.
Qed.

Lemma Values_yields {A : Type} (l : list A) : yields_list (Values l) l.
Proof.
  apply yields_of_eq. intros S yield s w fuel Hst. apply Values_range, Hst.
Qed.

(** ** Limit *)

Lemma Limit_range (n : Z) (g : Elems Duration) (S : Type)
    (yield : Yield Duration S) :
  forall fuel i s w,
    map_final snd
      (range_from g i (Z * S)%type (Limit_body yield) (n - Z.of_nat i, s) w fuel)
    = range_from (first_n n g) i S yield s w fuel.
Proof.
  induction fuel as [|fuel IH]; intros i s w; [reflexivity|].
  simpl. unfold first_n at 1.
  destruct (g i) as [x|].
  - destruct (Z.ltb_spec (Z.of_nat i) n) as [Hlt|Hge].
    + destruct (Z.leb_spec (n - Z.of_nat i) 0) as [Hle|Hgt]; [lia|].
      destruct (yield x s w) as [[[ | | ] s'] w']; try reflexivity.
      replace (n - Z.of_nat i - 1) with (n - Z.of_nat (Datatypes.S i)) by lia.
      apply IH.
    + destruct (Z.leb_spec (n - Z.of_nat i) 0) as [Hle|Hgt]; [reflexivity|lia].
  - destruct (Z.of_nat i <? n); reflexivity.
Qed.

Lemma Limit_yields (n : Z) (seq : Seq Duration) (g : Elems Duration) :
  yields seq g -> yields (Limit n seq) (first_n n g).
Proof.
  intros Hseq S yield s w fuel Hst.
  pose proof (Limit_range n g S yield fuel O s w) as Hr.
  rewrite Z.sub_0_r in Hr.
  destruct (Hseq (Z * S)%type (Limit_body yield) (n, s) w fuel) as [fuel0 H0].
  { rewrite <- Hr in Hst. exact Hst. }
  exists fuel0. intros fuel' Hle. unfold Limit. rewrite (H0 fuel' Hle). exact Hr.
Qed.

(** ** Jitter *)

Lemma Jitter_range (randN : nat -> Z -> Z) (g : Elems Duration) (S : Type)
    (yield : Yield Duration S) :
  (forall i d, g i = Some d -> 0 < d) ->
  forall fuel i s w,
    map_final snd
      (range_from g i (nat * S)%type (Jitter_body randN yield) (i, s) w fuel)
    = range_from (jittered randN g) i S yield s w fuel.
Proof.
  intros Hpos. induction fuel as [|fuel IH]; intros i s w; [reflexivity|].
  simpl. unfold jittered at 1.
  destruct (g i) as [d|] eqn:Hg; [|reflexivity].
  simpl. unfold rand_N.
  destruct (Z.leb_spec d 0) as [Hle|_]; [specialize (Hpos i d Hg); lia|].
  destruct (yield (randN i d) s w) as [[[ | | ] s'] w']; try reflexivity.
  apply IH.
Qed.

(** A jittered sequence of positive durations is a sequence like the
    others. *)
Lemma Jitter_yields (randN : nat -> Z -> Z) (seq : Seq Duration)
    (g : Elems Duration) :
  yields seq g ->
  (forall i d, g i = Some d -> 0 < d) ->
  yields (Jitter randN seq) (jittered randN g).
Proof.
  intros Hseq Hpos S yield s w fuel Hst.
  pose proof (Jitter_range randN g S yield Hpos fuel O s w) as Hr.
  destruct (Hseq (nat * S)%type (Jitter_body randN yield) (O, s) w fuel)
    as [fuel0 H0].
  { rewrite <- Hr in Hst. exact Hst. }
  exists fuel0. intros fuel' Hle. unfold Jitter. rewrite (H0 fuel' Hle). exact Hr.
Qed.

(** ** appendSentiel *)

Lemma live_step {A : Type} (g : Elems A) (i : nat) (x : A) :
  live g i = true -> g i = Some x -> live g (Datatypes.S i) = true.
Proof. intros Hl Hg. simpl. rewrite Hl, Hg. reflexivity. Qed.

Lemma live_below {A : Type} (g : Elems A) (k : nat) :
  (forall j, (j < k)%nat -> g j <> None) -> live g k = true.
Proof.
  induction k as [|k IH]; intros H; [reflexivity|].
  simpl. rewrite IH by (intros j Hj; apply H; lia).
  specialize (H k (Nat.lt_succ_diag_r k)). destruct (g k); [reflexivity|congruence].
Qed.

Lemma appendSentiel_range (g : Elems Duration) (S : Type)
    (yield : Yield Duration S) :
  forall fuel i s w,
    live g i = true ->
    status (range_from (with_sentinel g) i S yield s w fuel) <> Starved ->
    status (range_from g i (bool * S)%type (appendSentiel_body yield)
              (false, s) w fuel) <> Starved
    /\ appendSentiel_end yield
         (range_from g i (bool * S)%type (appendSentiel_body yield)
            (false, s) w fuel)
       = range_from (with_sentinel g) i S yield s w fuel.
Proof.
  induction fuel as [|fuel IH]; intros i s w Hlive Hst.
  - simpl in Hst. congruence.
  - simpl in *. unfold with_sentinel in Hst |- * at 1.
    rewrite Hlive in *.
    destruct (g i) as [x|] eqn:Hg.
    + destruct (yield x s w) as [[[ | | ] s'] w'] eqn:Hy; simpl.
      * apply IH; [eapply live_step; eassumption | exact Hst].
      * split; [discriminate | reflexivity].
      * split; [discriminate | reflexivity].
    + split; [simpl; discriminate|].
      unfold appendSentiel_end. simpl.
      destruct (yield SentinelDuration s w) as [[[ | | ] s'] w'] eqn:Hy;
        simpl; try reflexivity.
      destruct fuel as [|fuel]; simpl in *; [congruence|].
      unfold with_sentinel. simpl. rewrite Hlive, Hg. reflexivity.
Qed.

Lemma appendSentiel_yields (seq : Seq Duration) (g : Elems Duration) :
  yields seq g -> yields (appendSentiel seq) (with_sentinel g).
Proof.
  intros Hseq S yield s w fuel Hst.
  destruct (appendSentiel_range g S yield fuel O s w eq_refl Hst) as [Hst' Heq].
  destruct (Hseq _ _ _ _ _ Hst') as [fuel0 H0].
  exists fuel0. intros fuel' Hle. unfold appendSentiel.
  rewrite (H0 fuel' Hle). exact Heq.
Qed.

(** ** Backoff over the elements of its sequence *)

Lemma Backoff_range (ctx : Context) (seq : Seq Duration) (g : Elems Duration)
    (S : Type) (yield : Yield2 S) (s : S) (w : World) (fuel : nat) :
  yields seq g ->
  status (range_from (with_sentinel g) O (nat * S)%type
            (Backoff_body ctx yield) (O, s) w fuel) <> Starved ->
  exists fuel0, forall fuel', (fuel0 <= fuel')%nat ->
    Backoff ctx seq S yield s w fuel'
    = map_final snd
        (range_from (with_sentinel g) O (nat * S)%type
           (Backoff_body ctx yield) (O, s) w fuel).
Proof.
  intros Hseq Hst.
  destruct (appendSentiel_yields seq g Hseq _ _ _ _ _ Hst) as [fuel0 H0].
  exists fuel0. intros fuel' Hle. unfold Backoff. rewrite (H0 fuel' Hle).
  reflexivity.
Qed.

(** ** The Retry loop, iteration by iteration *)

Lemma range_from_step {A : Type} (g : Elems A) (i : nat) (S : Type)
    (yield : Yield A S) (s : S) (w : World) (fuel : nat) :
  range_from g i S yield s w (Datatypes.S fuel)
  = match g i with
    | None => mkResult Returned s w
    | Some x =>
        match yield x s w with
        | (Next, s', w') => range_from g (Datatypes.S i) S yield s' w' fuel
        | (Break, s', w') => mkResult Returned s' w'
        | (Panic, s', w') => mkResult Panicked s' w'
        end
    end.
Proof. reflexivity. Qed.

Lemma logs_nil (w : World) : logs [] w = w.
Proof. destruct w as [tr]. unfold logs. simpl. rewrite app_nil_r. reflexivity. Qed.

Lemma log_logs (e : Event) (es : list Event) (w : World) :
  log e (logs es w) = logs (es ++ [e]) w.
Proof. unfold log, logs. simpl. rewrite app_assoc. reflexivity. Qed.

Lemma logs_logs (es es' : list Event) (w : World) :
  logs es' (logs es w) = logs (es ++ es') w.
Proof. unfold logs. simpl. rewrite app_assoc. reflexivity. Qed.

Section RetryLoop.
Context {T U : Type}.
Variable zero : T.
Variable ctx : Context.
Variable f : Op T U.
Variable g : Elems Duration.
Variable u : U.

Lemma var_u_vars_before (j : nat) :
  var_u (vars_before zero f g u j) = state_before f g u j.
Proof. destruct j; reflexivity. Qed.

Lemma waits_S (k : nat) :
  waits f g u (Datatypes.S k)
  = waits f g u k ++ [Wait (next_wait (attempt f g u k))].
Proof. unfold waits. rewrite seq_S, map_app. reflexivity. Qed.

Lemma waits_length (k : nat) : List.length (waits f g u k) = k.
Proof. unfold waits. rewrite length_map, length_seq. reflexivity. Qed.

Lemma goes_on_elim (j : nat) :
  goes_on ctx f g u j = true ->
  g j = Some (handle_at g j)
  /\ is_nil (err (attempt f g u j)) = false
  /\ errors_Is (err (attempt f g u j)) ErrUnrecoverable = false
  /\ (next_wait (attempt f g u j) <? 0) = false
  /\ Done ctx j = false.
Proof.
  unfold goes_on, transient, handle_at. intros H.
  rewrite !andb_true_iff, !negb_true_iff in H.
  destruct H as [[[Hg [Hnil Hun]] Hnw] Hd].
  destruct (g j) as [d|]; [|discriminate].
  repeat split; try assumption. apply Z.ltb_ge. apply Z.leb_le. assumption.
Qed.

Lemma goes_on_live (k : nat) :
  (forall j, (j < k)%nat -> goes_on ctx f g u j = true) -> live g k = true.
Proof.
  intros H. apply live_below. intros j Hj.
  destruct (goes_on_elim j (H j Hj)) as [Hg _]. congruence.
Qed.

(** Iteration [k], when it is reached, calls the operation on the
    handle of position [k]. *)
Lemma with_sentinel_live (k : nat) :
  live g k = true -> with_sentinel g k = Some (handle_at g k).
Proof.
  intros Hl. unfold with_sentinel, handle_at. rewrite Hl.
  destruct (g k); reflexivity.
Qed.

Lemma Retry1_advance (m : nat) :
  (forall j, (j < m)%nat -> goes_on ctx f g u j = true) ->
  forall fuel w,
    range_from (with_sentinel g) O _ (Retry1_loop ctx f) (O, vars_before zero f g u O) w
      (m + fuel)
    = range_from (with_sentinel g) m _ (Retry1_loop ctx f) (m, vars_before zero f g u m)
        (logs (waits f g u m) w) fuel.
Proof.
  induction m as [|m IH]; intros Hgo fuel w.
  - simpl. rewrite logs_nil. reflexivity.
  - replace (Datatypes.S m + fuel)%nat with (m + Datatypes.S fuel)%nat by lia.
    rewrite IH by (intros j Hj; apply Hgo; lia).
    rewrite range_from_step.
    rewrite with_sentinel_live by (apply goes_on_live; intros j Hj; apply Hgo; lia).
    destruct (goes_on_elim m (Hgo m (Nat.lt_succ_diag_r m)))
      as (Hg & Hnil & Hun & Hneg & Hdone).
    unfold Retry1_loop at 1, Backoff_body, Retry1_body.
    rewrite var_u_vars_before. fold (attempt f g u m).
    rewrite Hun, Hnil. simpl negb. cbv iota. rewrite Hneg, Hdone.
    rewrite log_logs, <- waits_S. reflexivity.
Qed.

(** The iteration that does not lead to a next one is the last, and the
    driver returns what its call returned. *)
Lemma Retry1_last (k : nat) (w : World) :
  live g k = true ->
  goes_on ctx f g u k = false ->
  map_final (fun x => Retry1_return (snd x))
    (range_from (with_sentinel g) k _ (Retry1_loop ctx f) (k, vars_before zero f g u k) w 2)
  = mkResult Returned
      (value (attempt f g u k), err (attempt f g u k),
       captured (attempt f g u k))
      (logs (last_event ctx f g u k) w).
Proof.
  intros Hl Hstop.
  rewrite range_from_step, (with_sentinel_live k Hl).
  unfold Retry1_loop at 1, Backoff_body, Retry1_body.
  rewrite var_u_vars_before. fold (attempt f g u k).
  unfold last_event, goes_on, transient in *.
  destruct (errors_Is (err (attempt f g u k)) ErrUnrecoverable) eqn:Hun.
  { rewrite andb_false_r. simpl. rewrite logs_nil. reflexivity. }
  destruct (err (attempt f g u k)) as [e|] eqn:Herr; simpl is_nil; simpl negb;
    cbv iota.
  2:{ simpl. rewrite logs_nil. reflexivity. }
  simpl andb.
  destruct (Z.ltb_spec (next_wait (attempt f g u k)) 0) as [Hneg|Hpos].
  { destruct (Z.leb_spec 0 (next_wait (attempt f g u k))); [lia|].
    simpl. rewrite logs_nil. reflexivity. }
  destruct (Z.leb_spec 0 (next_wait (attempt f g u k))); [|lia].
  destruct (Done ctx k) eqn:Hdone.
  { reflexivity. }
  rewrite range_from_step.
  assert (Hend : with_sentinel g (Datatypes.S k) = None).
  { unfold with_sentinel. cbn [live]. rewrite Hl.
    destruct (g k); [|reflexivity].
    simpl in Hstop. discriminate. }
  rewrite Hend. reflexivity.
Qed.

(** The whole run: [k] iterations lead to a next one, iteration [k]
    does not. *)
Lemma Retry1_run (seq : Seq Duration) (k : nat) (w : World) :
  yields seq g ->
  (forall j, (j < k)%nat -> goes_on ctx f g u j = true) ->
  goes_on ctx f g u k = false ->
  exists fuel0, forall fuel, (fuel0 <= fuel)%nat ->
    Retry1 zero ctx seq f u w fuel
    = mkResult Returned
        (value (attempt f g u k), err (attempt f g u k),
         captured (attempt f g u k))
        (logs (waits f g u k ++ last_event ctx f g u k) w).
Proof.
  intros Hseq Hgo Hstop.
  pose proof (Retry1_advance k Hgo 2 w) as Hadv.
  pose proof (Retry1_last k (logs (waits f g u k) w) (goes_on_live k Hgo) Hstop)
    as Hlast.
  rewrite <- Hadv, logs_logs in Hlast.
  destruct (Backoff_range ctx seq g _ (Retry1_body f)
              (vars_before zero f g u O) w (k + 2) Hseq) as [fuel0 H0].
  { apply (f_equal status) in Hlast. unfold map_final in Hlast.
    cbn [status] in Hlast. unfold Retry1_loop in Hlast. rewrite Hlast. discriminate. }
  exists fuel0. intros fuel Hle. unfold Retry1.
  change (mkVars zero nil None u) with (vars_before zero f g u O).
  rewrite (H0 fuel Hle). rewrite <- Hlast. reflexivity.
Qed.
End RetryLoop.

(** ** Counting the invocations *)

Section Counting.
Context {T U : Type}.
Variable ctx : Context.
Variable f : Op T U.
Variable g : Elems Duration.

Lemma counting_state (n : nat) (u : U) (j : nat) :
  state_before (counting f) g (n, u) j = ((n + j)%nat, state_before f g u j).
Proof.
  induction j as [|j IH]; simpl.
  - rewrite Nat.add_0_r. reflexivity.
  - rewrite IH. simpl. rewrite Nat.add_succ_r. reflexivity.
Qed.

Lemma counting_attempt (n : nat) (u : U) (j : nat) :
  attempt (counting f) g (n, u) j
  = mkAttempt (value (attempt f g u j)) (err (attempt f g u j))
      (next_wait (attempt f g u j))
      (Datatypes.S (n + j), captured (attempt f g u j)).
Proof. unfold attempt. rewrite counting_state. reflexivity. Qed.

Lemma counting_goes_on (n : nat) (u : U) (j : nat) :
  goes_on ctx (counting f) g (n, u) j = goes_on ctx f g u j.
Proof. unfold goes_on. rewrite counting_attempt. reflexivity. Qed.

Lemma counting_waits (n : nat) (u : U) (k : nat) :
  waits (counting f) g (n, u) k = waits f g u k.
Proof.
  unfold waits. apply map_ext. intros j. rewrite counting_attempt. reflexivity.
Qed.

Lemma counting_last_event (n : nat) (u : U) (k : nat) :
  last_event ctx (counting f) g (n, u) k = last_event ctx f g u k.
Proof. unfold last_event. rewrite counting_attempt. reflexivity. Qed.

(** The run of [Retry1] on an operation that counts its invocations:
    after a last iteration [k] the count is [k + 1]. *)
Lemma Retry1_run_counting (zero : T) (seq : Seq Duration) (u : U) (k : nat)
    (w : World) :
  yields seq g ->
  (forall j, (j < k)%nat -> goes_on ctx f g u j = true) ->
  goes_on ctx f g u k = false ->
  exists fuel0, forall fuel, (fuel0 <= fuel)%nat ->
    Retry1 zero ctx seq (counting f) (O, u) w fuel
    = mkResult Returned
        (value (attempt f g u k), err (attempt f g u k),
         (Datatypes.S k, captured (attempt f g u k)))
        (logs (waits f g u k ++ last_event ctx f g u k) w).
Proof.
  intros Hseq Hgo Hstop.
  destruct (Retry1_run zero ctx (counting f) g (O, u) seq k w Hseq) as [fuel0 H0].
  - intros j Hj. rewrite counting_goes_on. apply Hgo, Hj.
  - rewrite counting_goes_on. exact Hstop.
  - exists fuel0. intros fuel Hle. rewrite (H0 fuel Hle).
    rewrite counting_attempt, counting_waits, counting_last_event. reflexivity.
Qed.
End Counting.

Lemma yields_ext {A : Type} (seq : Seq A) (g g' : Elems A) :
  yields seq g -> (forall i, g i = g' i) -> yields seq g'.
Proof.
  intros Hseq Hext S yield s w fuel Hst.
  rewrite <- (range_from_ext g g' S yield fuel O s w) in Hst |- *
    by (intros; apply Hext).
  destruct (Hseq S yield s w fuel Hst) as [fuel0 H0].
  exists fuel0. intros fuel' Hle. rewrite (H0 fuel' Hle).
  reflexivity.
Qed.

(** [Limit(n, Const(d))] is the finite sequence of [n] times [d]. *)
Lemma Limit_Const_yields (n : nat) (d : Duration) :
  yields_list (Limit (Z.of_nat n) (Const d)) (repeat d n).
Proof.
  apply (yields_ext _ (first_n (Z.of_nat n) (fun _ => Some d))).
  - apply Limit_yields, Const_yields.
  - intros i. unfold first_n.
    destruct (Z.ltb_spec (Z.of_nat i) (Z.of_nat n)) as [Hlt|Hge].
    + symmetry. apply nth_error_repeat. lia.
    + symmetry. apply nth_error_None. rewrite repeat_length. lia.
Qed.

(** ** How an iteration ends the loop *)

Section LastIteration.
Context {T U : Type}.
Variable ctx : Context.
Variable f : Op T U.
Variable g : Elems Duration.
Variable u : U.
Variable k : nat.

Lemma stops_unrecoverable :
  errors_Is (err (attempt f g u k)) ErrUnrecoverable = true ->
  goes_on ctx f g u k = false /\ last_event ctx f g u k = [].
Proof.
  intros H. unfold goes_on, last_event, transient. rewrite H. simpl.
  rewrite !andb_false_r. split; reflexivity.
Qed.

Lemma stops_nil :
  is_nil (err (attempt f g u k)) = true ->
  goes_on ctx f g u k = false /\ last_event ctx f g u k = [].
Proof.
  intros H. unfold goes_on, last_event, transient. rewrite H. simpl.
  rewrite !andb_false_r. split; reflexivity.
Qed.

Lemma stops_negative :
  next_wait (attempt f g u k) < 0 ->
  goes_on ctx f g u k = false /\ last_event ctx f g u k = [].
Proof.
  intros H. unfold goes_on, last_event.
  destruct (Z.leb_spec 0 (next_wait (attempt f g u k))) as [Hle|_]; [lia|].
  rewrite !andb_false_r. split; reflexivity.
Qed.

Lemma stops_done :
  Done ctx k = true ->
  goes_on ctx f g u k = false
  /\ last_event ctx f g u k = interrupted_after (attempt f g u k).
Proof.
  intros H. unfold goes_on, last_event, interrupted_after. rewrite H.
  rewrite andb_false_r. split; reflexivity.
Qed.

Lemma stops_exhausted :
  g k = None -> goes_on ctx f g u k = false.
Proof. intros H. unfold goes_on. rewrite H. reflexivity. Qed.
End LastIteration.

(* ================================================================= *)
(** * The claims *)

(** ** C1 *)

(** C1, as the spec states it, fails: with a context cancelled before the
    driver is entered and the forever strategy [Const(1s)] (the timer of
    1s has not fired at the select, which takes Done), an operation that
    fails is invoked once and [Retry0] returns the error of the
    operation, which is not the error of the context. *)
Lemma C1_counterexample :
  cancelled_on_entry long_pauses
  /\ yields (Const Second) (fun _ => Some Second)
  /\ forever (fun _ : nat => Some Second)
  /\ (forall fuel, (1 <= fuel)%nat ->
        Retry0 (context_of long_pauses (Some Canceled)) (Const Second)
          (counting always_failing) (O, tt) World0 fuel
        = mkResult Returned (spurious, (1%nat, tt))
            {| trace := [Interrupted Second] |})
  /\ spurious <> Err_of (context_of long_pauses (Some Canceled)).
Proof.
  split; [intros i; reflexivity|]. split; [apply Const_yields|].
  split; [intros i; discriminate|].
  split; [|discriminate].
  intros [|fuel] H; [lia | reflexivity].
Qed.

Lemma takes_Done_only_ready (sel : Select) (i : nat) :
  done_ready sel i = true -> timer_ready sel i = false ->
  takes_Done sel i = true.
Proof. intros Hd Ht. unfold takes_Done. rewrite Hd, Ht. reflexivity. Qed.

Lemma takes_Done_both_ready (sel : Select) (i : nat) :
  done_ready sel i = true -> timer_ready sel i = true ->
  takes_Done sel i = choice sel i.
Proof. intros Hd Ht. unfold takes_Done. rewrite Hd, Ht. reflexivity. Qed.

(** The first select takes Done: one invocation. *)
Lemma Retry1_interrupted_at_once {T U : Type} (zero : T) (ctx : Context)
    (seq : Seq Duration) (g : Elems Duration) (d : Duration) (f : Op T U)
    (u : U) (w : World) :
  yields seq g ->
  g O = Some d ->
  Done ctx O = true ->
  exists fuel0, forall fuel, (fuel0 <= fuel)%nat ->
    Retry1 zero ctx seq (counting f) (O, u) w fuel
    = mkResult Returned
        (value (f O d u), err (f O d u), (1%nat, captured (f O d u)))
        (logs (interrupted_after (f O d u)) w).
Proof.
  intros Hseq Hd Hdone.
  destruct (stops_done ctx f g u O Hdone) as [Hstop Hlast].
  destruct (Retry1_run_counting ctx f g zero seq u O w Hseq) as [fuel0 H0].
  - intros j Hj. lia.
  - exact Hstop.
  - exists fuel0. intros fuel Hle. rewrite (H0 fuel Hle), Hlast.
    unfold attempt, handle_at. simpl. rewrite Hd. reflexivity.
Qed.

(** The first select takes the timer and the second takes Done: two
    invocations. *)
Lemma Retry1_interrupted_at_second {T U : Type} (zero : T) (ctx : Context)
    (seq : Seq Duration) (g : Elems Duration) (d : Duration) (f : Op T U)
    (u : U) (w : World) :
  yields seq g ->
  g O = Some d ->
  Done ctx O = false ->
  Done ctx 1%nat = true ->
  transient (err (f O d u)) = true ->
  0 <= next_wait (f O d u) ->
  exists fuel0, forall fuel, (fuel0 <= fuel)%nat ->
    Retry1 zero ctx seq (counting f) (O, u) w fuel
    = mkResult Returned
        (value (attempt f g u 1), err (attempt f g u 1),
         (2%nat, captured (attempt f g u 1)))
        (logs (Wait (next_wait (f O d u))
               :: interrupted_after (attempt f g u 1)) w).
Proof.
  intros Hseq Hd Hdone0 Hdone1 Htr Hnw.
  assert (Ha : attempt f g u O = f O d u).
  { unfold attempt, handle_at. simpl. rewrite Hd. reflexivity. }
  destruct (stops_done ctx f g u 1%nat Hdone1) as [Hstop Hlast].
  destruct (Retry1_run_counting ctx f g zero seq u 1%nat w Hseq) as [fuel0 H0].
  - intros j Hj. assert (j = O) by lia. subst j.
    unfold goes_on. rewrite Ha, Hd, Htr, Hdone0. simpl.
    rewrite andb_true_r. apply Z.leb_le. exact Hnw.
  - exact Hstop.
  - exists fuel0. intros fuel Hle. rewrite (H0 fuel Hle), Hlast.
    unfold waits. simpl. rewrite Ha. reflexivity.
Qed.

(** C1 (amended): with a context that is cancelled when the driver is
    entered and a forever strategy that yields its durations (such as
    [Const]), where the timer of the first pause has not fired when the
    select is reached, each of [Retry0], [Retry1], [Retry2] and [Retry3]
    invokes the operation exactly once and returns what that one
    invocation returned, its values and its error (nil when it succeeded,
    and not the error of the context); no wait is completed.  Where the
    timer has fired already (a pause of 0) Go may take the timer case,
    and the operation, if it failed transiently, is invoked again. *)
Theorem C1_cancelled_on_entry_one_invocation (sel : Select) (e : error)
    (seq : Seq Duration) (g : Elems Duration) (w : World) :
  yields seq g ->
  forever g ->
  cancelled_on_entry sel ->
  exists d,
    g O = Some d
    /\ (timer_ready sel O = false ->
        (forall (U : Type) (f : Op unit U) (u : U),
            exists fuel0, forall fuel, (fuel0 <= fuel)%nat ->
              let a := f O d u in
              Retry0 (context_of sel e) seq (counting f) (O, u) w fuel
              = mkResult Returned (err a, (1%nat, captured a))
                  (logs (interrupted_after a) w))
        /\ (forall (T U : Type) (zero : T) (f : Op T U) (u : U),
            exists fuel0, forall fuel, (fuel0 <= fuel)%nat ->
              let a := f O d u in
              Retry1 zero (context_of sel e) seq (counting f) (O, u) w fuel
              = mkResult Returned (value a, err a, (1%nat, captured a))
                  (logs (interrupted_after a) w))
        /\ (forall (T1 T2 U : Type) (zero1 : T1) (zero2 : T2)
              (f : Op (T1 * T2) U) (u : U),
            exists fuel0, forall fuel, (fuel0 <= fuel)%nat ->
              let a := f O d u in
              Retry2 zero1 zero2 (context_of sel e) seq (counting f) (O, u) w
                fuel
              = mkResult Returned
                  (fst (value a), snd (value a), err a, (1%nat, captured a))
                  (logs (interrupted_after a) w))
        /\ (forall (T1 T2 T3 U : Type) (zero1 : T1) (zero2 : T2) (zero3 : T3)
              (f : Op (T1 * T2 * T3) U) (u : U),
            exists fuel0, forall fuel, (fuel0 <= fuel)%nat ->
              let a := f O d u in
              Retry3 zero1 zero2 zero3 (context_of sel e) seq (counting f)
                (O, u) w fuel
              = mkResult Returned
                  (fst (fst (value a)), snd (fst (value a)), snd (value a),
                   err a, (1%nat, captured a))
                  (logs (interrupted_after a) w)))
    /\ (timer_ready sel O = true ->
        choice sel O = false ->
        takes_Done sel 1%nat = true ->
        forall (T U : Type) (zero : T) (f : Op T U) (u : U),
          transient (err (f O d u)) = true ->
          0 <= next_wait (f O d u) ->
          exists fuel0, forall fuel, (fuel0 <= fuel)%nat ->
            let a := attempt f g u 1 in
            Retry1 zero (context_of sel e) seq (counting f) (O, u) w fuel
            = mkResult Returned (value a, err a, (2%nat, captured a))
                (logs (Wait (next_wait (f O d u)) :: interrupted_after a) w)).
Proof.
  intros Hseq Hf Hc.
  destruct (g O) as [d|] eqn:Hd; [|exfalso; exact (Hf O Hd)].
  exists d. split; [reflexivity|]. split.
  - intros Ht.
    assert (Hdone : Done (context_of sel e) O = true)
      by (apply takes_Done_only_ready; [apply Hc | exact Ht]).
    repeat split.
    + intros U f u.
      destruct (Retry1_interrupted_at_once tt (context_of sel e) seq g d f u w
                  Hseq Hd Hdone) as [fuel0 H0].
      exists fuel0. intros fuel Hle. unfold Retry0. rewrite (H0 fuel Hle).
      reflexivity.
    + intros T U zero f u.
      exact (Retry1_interrupted_at_once zero (context_of sel e) seq g d f u w
               Hseq Hd Hdone).
    + intros T1 T2 U zero1 zero2 f u.
      destruct (Retry1_interrupted_at_once (zero1, zero2) (context_of sel e)
                  seq g d f u w Hseq Hd Hdone) as [fuel0 H0].
      exists fuel0. intros fuel Hle. unfold Retry2. rewrite (H0 fuel Hle).
      unfold map_final. simpl.
      destruct (value (f O d u)) as [t1 t2]. reflexivity.
    + intros T1 T2 T3 U zero1 zero2 zero3 f u.
      destruct (Retry1_interrupted_at_once (zero1, zero2, zero3)
                  (context_of sel e) seq g d f u w Hseq Hd Hdone) as [fuel0 H0].
      exists fuel0. intros fuel Hle. unfold Retry3. rewrite (H0 fuel Hle).
      unfold map_final. simpl.
      destruct (value (f O d u)) as [[t1 t2] t3]. reflexivity.
  - intros Ht Hch Hdone1 T U zero f u Htr Hnw.
    assert (Hdone0 : Done (context_of sel e) O = false).
    { simpl. rewrite (takes_Done_both_ready sel O (Hc O) Ht). exact Hch. }
    exact (Retry1_interrupted_at_second zero (context_of sel e) seq g d f u w
             Hseq Hd Hdone0 Hdone1 Htr Hnw).
Qed.

Lemma C1_witness :
  yields (Const Second) (fun _ => Some Second)
  /\ forever (fun _ : nat => Some Second)
  /\ cancelled_on_entry long_pauses
  /\ yields (Const 0) (fun _ => Some 0)
  /\ forever (fun _ : nat => Some 0)
  /\ cancelled_on_entry zero_pauses
  /\ (exists fuel0, forall fuel, (fuel0 <= fuel)%nat ->
        Retry0 (context_of long_pauses (Some Canceled)) (Const Second)
          (counting always_failing) (O, tt) World0 fuel
        = mkResult Returned (spurious, (1%nat, tt))
            {| trace := [Interrupted Second] |})
  /\ (exists fuel0, forall fuel, (fuel0 <= fuel)%nat ->
        Retry1 0 (context_of long_pauses (Some Canceled)) (Const Second)
          (counting succeeds_at_3) (O, tt) World0 fuel
        = mkResult Returned (-1, spurious, (1%nat, tt))
            {| trace := [Interrupted Second] |})
  /\ (exists fuel0, forall fuel, (fuel0 <= fuel)%nat ->
        Retry1 0 (context_of zero_pauses (Some Canceled)) (Const 0)
          (counting succeeds_at_3) (O, tt) World0 fuel
        = mkResult Returned (-1, spurious, (2%nat, tt))
            {| trace := [Wait 0; Interrupted 0] |}).
Proof.
  assert (F1 : forever (fun _ : nat => Some Second)) by (intros i; discriminate).
  assert (F0 : forever (fun _ : nat => Some 0)) by (intros i; discriminate).
  assert (L : cancelled_on_entry long_pauses) by (intros i; reflexivity).
  assert (Z0 : cancelled_on_entry zero_pauses) by (intros i; reflexivity).
  split; [apply Const_yields|]. split; [exact F1|]. split; [exact L|].
  split; [apply Const_yields|]. split; [exact F0|]. split; [exact Z0|].
  destruct (C1_cancelled_on_entry_one_invocation long_pauses (Some Canceled)
              (Const Second) (fun _ => Some Second) World0
              (Const_yields Second) F1 L) as (d1 & Hd1 & Hlong & _).
  injection Hd1 as <-.
  destruct (Hlong eq_refl) as (H0 & H1 & _).
  destruct (C1_cancelled_on_entry_one_invocation zero_pauses (Some Canceled)
              (Const 0) (fun _ => Some 0) World0
              (Const_yields 0) F0 Z0) as (d0 & Hd0 & _ & Hzero).
  injection Hd0 as <-.
  split; [exact (H0 unit always_failing tt)|].
  split; [exact (H1 Z unit 0 succeeds_at_3 tt)|].
  exact (Hzero eq_refl eq_refl eq_refl Z unit 0 succeeds_at_3 tt eq_refl
           (Z.le_refl 0)).
Defined.

(** ** C2 and C6: a finite sequence and an operation that always fails *)

Lemma handle_at_nth_error (l : list Duration) (j : nat) (d : Duration) :
  nth_error l j = Some d -> handle_at (nth_error l) j = d.
Proof. intros H. unfold handle_at. rewrite H. reflexivity. Qed.

Lemma handle_at_end (l : list Duration) :
  handle_at (nth_error l) (List.length l) = SentinelDuration.
Proof.
  unfold handle_at.
  rewrite (proj2 (nth_error_None l (List.length l))) by lia. reflexivity.
Qed.

Lemma map_handle_at (l : list Duration) :
  map (fun j => Wait (handle_at (nth_error l) j)) (seq O (List.length l))
  = map Wait l.
Proof.
  induction l as [|x l IH]; [reflexivity|].
  simpl. f_equal. rewrite <- seq_shift, map_map. exact IH.
Qed.

Section AlwaysFailing.
Context {U : Type}.
Variable ctx : Context.
Variable seq : Seq Duration.
Variable l : list Duration.
Variable f : Op unit U.
Hypothesis seq_yields : yields_list seq l.
Hypothesis pauses_nonneg : forall d, In d l -> 0 <= d.
Hypothesis not_cancelled : forall i, Done ctx i = false.
Hypothesis fails : forall i nw u, transient (err (f i nw u)) = true.

Lemma always_failing_goes_on (u : U) (j : nat) :
  (forall i nw u, 0 <= nw -> 0 <= next_wait (f i nw u)) ->
  (j < List.length l)%nat ->
  goes_on ctx f (nth_error l) u j = true.
Proof.
  intros Hkeep Hj. unfold goes_on.
  destruct (nth_error l j) as [d|] eqn:Hd.
  2:{ apply nth_error_None in Hd. lia. }
  rewrite not_cancelled. unfold attempt at 1. rewrite fails. simpl.
  rewrite andb_true_r. apply Z.leb_le. unfold attempt. apply Hkeep.
  rewrite (handle_at_nth_error l j d Hd).
  apply pauses_nonneg. eapply nth_error_In. exact Hd.
Qed.

Lemma always_failing_run (u : U) (w : World) :
  (forall i nw u, 0 <= nw -> 0 <= next_wait (f i nw u)) ->
  exists fuel0, forall fuel, (fuel0 <= fuel)%nat ->
    Retry0 ctx seq (counting f) (O, u) w fuel
    = mkResult Returned
        (err (attempt f (nth_error l) u (List.length l)),
         (Datatypes.S (List.length l),
          captured (attempt f (nth_error l) u (List.length l))))
        (logs (waits f (nth_error l) u (List.length l)
               ++ last_event ctx f (nth_error l) u (List.length l)) w).
Proof.
  intros Hkeep.
  destruct (Retry1_run_counting ctx f (nth_error l) tt seq u (List.length l) w
              seq_yields) as [fuel0 H0].
  - intros j Hj. apply always_failing_goes_on; assumption.
  - apply stops_exhausted. apply nth_error_None. lia.
  - exists fuel0. intros fuel Hle. unfold Retry0. rewrite (H0 fuel Hle).
    reflexivity.
Qed.

(** C2 (amended): for a finite pause sequence [s] of length [n] whose
    durations are not negative, an operation that fails transiently on
    every invocation and never puts a negative duration into a handle
    that held one that is not negative, and a context that is not
    cancelled, [Retry0] invokes the operation exactly [n + 1] times, once
    per element of [s] and once for the sentinel, and returns the error
    of the last invocation. *)
Theorem C2_invocations_without_negative_override (u : U) (w : World) :
  (forall i nw u, 0 <= nw -> 0 <= next_wait (f i nw u)) ->
  exists fuel0, forall fuel, (fuel0 <= fuel)%nat ->
    let n := List.length l in
    let a := attempt f (nth_error l) u n in
    Retry0 ctx seq (counting f) (O, u) w fuel
    = mkResult Returned (err a, (Datatypes.S n, captured a))
        (logs (waits f (nth_error l) u n ++ last_event ctx f (nth_error l) u n) w).
Proof. intros Hkeep. exact (always_failing_run u w Hkeep). Qed.

(** C6 (amended): for a finite pause sequence [s] of length [n] whose
    durations are not negative, an operation that always fails
    transiently and does not override the handle, and a context that is
    not cancelled, the driver waits exactly [n] times, for the elements
    of [s] in their order; the sentinel is not waited for. *)
Theorem C6_waits_are_the_pauses (u : U) (w : World) :
  (forall i nw u, next_wait (f i nw u) = nw) ->
  (exists fuel0, forall fuel, (fuel0 <= fuel)%nat ->
    let n := List.length l in
    let a := attempt f (nth_error l) u n in
    Retry0 ctx seq (counting f) (O, u) w fuel
    = mkResult Returned (err a, (Datatypes.S n, captured a))
        (logs (map Wait l) w))
  /\ List.length (map Wait l) = List.length l
  /\ ~ In (Wait SentinelDuration) (map Wait l).
Proof.
  intros Hkeep. split; [|split].
  - destruct (always_failing_run u w) as [fuel0 H0].
    { intros i nw u0 Hnw. rewrite Hkeep. exact Hnw. }
    exists fuel0. intros fuel Hle. cbv zeta. rewrite (H0 fuel Hle).
    destruct (stops_negative ctx f (nth_error l) u (List.length l)) as [_ Hlast].
    { unfold attempt. rewrite Hkeep, handle_at_end. reflexivity. }
    rewrite Hlast, app_nil_r. unfold waits.
    rewrite (map_ext _ (fun j => Wait (handle_at (nth_error l) j)))
      by (intros j; unfold attempt; rewrite Hkeep; reflexivity).
    rewrite map_handle_at. reflexivity.
  - apply length_map.
  - intros Hin. apply in_map_iff in Hin. destruct Hin as (d & Hd & Hin).
    injection Hd as Hd. apply pauses_nonneg in Hin. unfold SentinelDuration in Hd.
    lia.
Qed.
End AlwaysFailing.

Lemma five_milliseconds :
  yields_list (Limit 5 (Const Millisecond)) (repeat Millisecond 5).
Proof. exact (Limit_Const_yields 5 Millisecond). Qed.

(** C2, as the spec states it, fails on the operation of
    [ExampleRetry0_sentinel_next_wait]: it returns a transient error on
    every invocation, the sequence [Limit(5, Const(1ms))] has length 5,
    and [Retry0] invokes the operation 4 times, not 6. *)
Lemma C2_counterexample :
  yields_list (Limit 5 (Const Millisecond)) (repeat Millisecond 5)
  /\ (forall i nw u, transient (err (sentinel_at_3 i nw u)) = true)
  /\ (forall i, Done Background i = false)
  /\ (forall fuel, (4 <= fuel)%nat ->
        Retry0 Background (Limit 5 (Const Millisecond)) (counting sentinel_at_3)
          (O, tt) World0 fuel
        = mkResult Returned
            (Some (errorString "some other error"), (4%nat, tt))
            {| trace := [Wait Millisecond; Wait Millisecond; Wait Millisecond] |})
  /\ 4%nat <> Datatypes.S (List.length (repeat Millisecond 5)).
Proof.
  split; [exact five_milliseconds|].
  split.
  { intros i nw u. unfold sentinel_at_3. destruct (Nat.eqb i 3); reflexivity. }
  split; [reflexivity|].
  split; [|simpl; lia].
  intros fuel H. do 4 (destruct fuel as [|fuel]; [lia|]). reflexivity.
Qed.

Lemma C2_witness :
  yields_list (Limit 5 (Const Millisecond)) (repeat Millisecond 5)
  /\ (forall d, In d (repeat Millisecond 5) -> 0 <= d)
  /\ (forall i, Done Background i = false)
  /\ (forall i nw u, transient (err (always_failing i nw u)) = true)
  /\ (forall i nw u, 0 <= nw -> 0 <= next_wait (always_failing i nw u))
  /\ exists fuel0, forall fuel, (fuel0 <= fuel)%nat ->
       Retry0 Background (Limit 5 (Const Millisecond)) (counting always_failing)
         (O, tt) World0 fuel
       = mkResult Returned (spurious, (6%nat, tt))
           {| trace := repeat (Wait Millisecond) 5 |}.
Proof.
  assert (Hnn : forall d, In d (repeat Millisecond 5) -> 0 <= d).
  { intros d Hd. apply repeat_spec in Hd. subst d. unfold Millisecond. lia. }
  repeat split; try exact five_milliseconds; try exact Hnn; try (intros; assumption).
  exact (C2_invocations_without_negative_override Background
           (Limit 5 (Const Millisecond)) (repeat Millisecond 5) always_failing
           five_milliseconds Hnn (fun _ => eq_refl) (fun _ _ _ => eq_refl)
           tt World0 (fun _ _ _ H => H)).
Defined.

(** C6, as the spec states it, fails on a sequence with a negative
    duration: [Limit(1, Const(-5ns))] has length 1, the operation fails
    without touching the handle, and the driver waits not once but never
    (a negative pause ends the loop like the sentinel). *)
Lemma C6_counterexample :
  yields_list (Limit 1 (Const (-5))) [-5]
  /\ (forall i nw u, transient (err (always_failing i nw u)) = true)
  /\ (forall i nw u, next_wait (always_failing i nw u) = nw)
  /\ (forall i, Done Background i = false)
  /\ (forall fuel, (1 <= fuel)%nat ->
        Retry0 Background (Limit 1 (Const (-5))) (counting always_failing)
          (O, tt) World0 fuel
        = mkResult Returned (spurious, (1%nat, tt))
            {| trace := [] |})
  /\ [] <> map Wait [-5].
Proof.
  split; [exact (Limit_Const_yields 1 (-5))|].
  split; [reflexivity|]. split; [reflexivity|]. split; [reflexivity|].
  split; [|discriminate].
  intros [|fuel] H; [lia | reflexivity].
Qed.

Lemma C6_witness :
  yields_list (Values [Millisecond; 0; Second]) [Millisecond; 0; Second]
  /\ (forall d, In d [Millisecond; 0; Second] -> 0 <= d)
  /\ (forall i, Done Background i = false)
  /\ (forall i nw u, transient (err (always_failing i nw u)) = true)
  /\ (forall i nw u, next_wait (always_failing i nw u) = nw)
  /\ exists fuel0, forall fuel, (fuel0 <= fuel)%nat ->
       Retry0 Background (Values [Millisecond; 0; Second])
         (counting always_failing) (O, tt) World0 fuel
       = mkResult Returned (spurious, (4%nat, tt))
           {| trace := [Wait Millisecond; Wait 0; Wait Second] |}.
Proof.
  assert (Hnn : forall d, In d [Millisecond; 0; Second] -> 0 <= d).
  { intros d [H|[H|[H|[]]]]; subst d; unfold Millisecond, Second; lia. }
  repeat split; try apply Values_yields; try exact Hnn.
  exact (proj1 (C6_waits_are_the_pauses Background
                  (Values [Millisecond; 0; Second]) [Millisecond; 0; Second]
                  always_failing (Values_yields _) Hnn (fun _ => eq_refl)
                  (fun _ _ _ => eq_refl) tt World0 (fun _ _ _ => eq_refl))).
Defined.

(** ** C3, C4 and C5: the iteration that ends the loop *)

Lemma Retry1_negative_override {T U : Type} (zero : T) (ctx : Context)
    (seq : Seq Duration) (g : Elems Duration) (f : Op T U) (u : U)
    (w : World) (i : nat) :
  yields seq g ->
  (forall j, (j < i)%nat -> goes_on ctx f g u j = true) ->
  next_wait (attempt f g u i) < 0 ->
  exists fuel0, forall fuel, (fuel0 <= fuel)%nat ->
    Retry1 zero ctx seq (counting f) (O, u) w fuel
    = mkResult Returned
        (value (attempt f g u i), err (attempt f g u i),
         (Datatypes.S i, captured (attempt f g u i)))
        (logs (waits f g u i) w).
Proof.
  intros Hseq Hgo Hneg.
  destruct (stops_negative ctx f g u i Hneg) as [Hstop Hlast].
  destruct (Retry1_run_counting ctx f g zero seq u i w Hseq Hgo Hstop)
    as [fuel0 H0].
  exists fuel0. intros fuel Hle.
  rewrite (H0 fuel Hle), Hlast, app_nil_r. reflexivity.
Qed.

(** C3: for each of the generic drivers [Retry0], [Retry1], [Retry2] and
    [Retry3]: when iteration [i] is reached (every iteration before it
    led to a next one) and the operation leaves a negative duration in
    the handle during iteration [i], the driver ends after that
    iteration: the operation has been invoked [i + 1] times, the only
    waits are the [i] waits of the earlier iterations, and the values and
    the error returned are those of the call of iteration [i]. *)
Theorem C3_negative_override_ends_the_loop (ctx : Context)
    (seq : Seq Duration) (g : Elems Duration) (w : World) (i : nat) :
  yields seq g ->
  (forall (U : Type) (f : Op unit U) (u : U),
      (forall j, (j < i)%nat -> goes_on ctx f g u j = true) ->
      next_wait (attempt f g u i) < 0 ->
      exists fuel0, forall fuel, (fuel0 <= fuel)%nat ->
        let a := attempt f g u i in
        Retry0 ctx seq (counting f) (O, u) w fuel
        = mkResult Returned (err a, (Datatypes.S i, captured a))
            (logs (waits f g u i) w))
  /\ (forall (T U : Type) (zero : T) (f : Op T U) (u : U),
      (forall j, (j < i)%nat -> goes_on ctx f g u j = true) ->
      next_wait (attempt f g u i) < 0 ->
      exists fuel0, forall fuel, (fuel0 <= fuel)%nat ->
        let a := attempt f g u i in
        Retry1 zero ctx seq (counting f) (O, u) w fuel
        = mkResult Returned (value a, err a, (Datatypes.S i, captured a))
            (logs (waits f g u i) w))
  /\ (forall (T1 T2 U : Type) (zero1 : T1) (zero2 : T2)
        (f : Op (T1 * T2) U) (u : U),
      (forall j, (j < i)%nat -> goes_on ctx f g u j = true) ->
      next_wait (attempt f g u i) < 0 ->
      exists fuel0, forall fuel, (fuel0 <= fuel)%nat ->
        let a := attempt f g u i in
        Retry2 zero1 zero2 ctx seq (counting f) (O, u) w fuel
        = mkResult Returned
            (fst (value a), snd (value a), err a,
             (Datatypes.S i, captured a))
            (logs (waits f g u i) w))
  /\ (forall (T1 T2 T3 U : Type) (zero1 : T1) (zero2 : T2) (zero3 : T3)
        (f : Op (T1 * T2 * T3) U) (u : U),
      (forall j, (j < i)%nat -> goes_on ctx f g u j = true) ->
      next_wait (attempt f g u i) < 0 ->
      exists fuel0, forall fuel, (fuel0 <= fuel)%nat ->
        let a := attempt f g u i in
        Retry3 zero1 zero2 zero3 ctx seq (counting f) (O, u) w fuel
        = mkResult Returned
            (fst (fst (value a)), snd (fst (value a)), snd (value a), err a,
             (Datatypes.S i, captured a))
            (logs (waits f g u i) w))
  /\ (forall (T U : Type) (f : Op T U) (u : U),
      List.length (waits f g u i) = i).
Proof.
  intros Hseq. repeat split.
  - intros U f u Hgo Hneg.
    destruct (Retry1_negative_override tt ctx seq g f u w i Hseq Hgo Hneg)
      as [fuel0 H0].
    exists fuel0. intros fuel Hle. unfold Retry0. rewrite (H0 fuel Hle).
    reflexivity.
  - intros T U zero f u Hgo Hneg.
    exact (Retry1_negative_override zero ctx seq g f u w i Hseq Hgo Hneg).
  - intros T1 T2 U zero1 zero2 f u Hgo Hneg.
    destruct (Retry1_negative_override (zero1, zero2) ctx seq g f u w i Hseq
                Hgo Hneg) as [fuel0 H0].
    exists fuel0. intros fuel Hle. unfold Retry2. rewrite (H0 fuel Hle).
    unfold map_final. simpl.
    destruct (value (attempt f g u i)) as [t1 t2]. reflexivity.
  - intros T1 T2 T3 U zero1 zero2 zero3 f u Hgo Hneg.
    destruct (Retry1_negative_override (zero1, zero2, zero3) ctx seq g f u w i
                Hseq Hgo Hneg) as [fuel0 H0].
    exists fuel0. intros fuel Hle. unfold Retry3. rewrite (H0 fuel Hle).
    unfold map_final. simpl.
    destruct (value (attempt f g u i)) as [[t1 t2] t3]. reflexivity.
  - intros T U f u. apply waits_length.
Qed.

Lemma C3_witness :
  yields_list (Limit 5 (Const Millisecond)) (repeat Millisecond 5)
  /\ (exists fuel0, forall fuel, (fuel0 <= fuel)%nat ->
        Retry0 Background (Limit 5 (Const Millisecond))
          (counting sentinel_at_3) (O, tt) World0 fuel
        = mkResult Returned
            (Some (errorString "some other error"), (4%nat, tt))
            {| trace := [Wait Millisecond; Wait Millisecond; Wait Millisecond] |})
  /\ (exists fuel0, forall fuel, (fuel0 <= fuel)%nat ->
        Retry1 0 Background (Limit 5 (Const Millisecond))
          (counting (returning 7 sentinel_at_3)) (O, tt) World0 fuel
        = mkResult Returned
            (7, Some (errorString "some other error"), (4%nat, tt))
            {| trace := [Wait Millisecond; Wait Millisecond; Wait Millisecond] |})
  /\ (exists fuel0, forall fuel, (fuel0 <= fuel)%nat ->
        Retry2 0 false Background (Limit 5 (Const Millisecond))
          (counting (returning (7, true) sentinel_at_3)) (O, tt) World0 fuel
        = mkResult Returned
            (7, true, Some (errorString "some other error"), (4%nat, tt))
            {| trace := [Wait Millisecond; Wait Millisecond; Wait Millisecond] |})
  /\ (exists fuel0, forall fuel, (fuel0 <= fuel)%nat ->
        Retry3 0 false 0 Background (Limit 5 (Const Millisecond))
          (counting (returning (7, true, 9) sentinel_at_3)) (O, tt) World0 fuel
        = mkResult Returned
            (7, true, 9, Some (errorString "some other error"), (4%nat, tt))
            {| trace := [Wait Millisecond; Wait Millisecond; Wait Millisecond] |}).
Proof.
  assert (Hgo : forall (T : Type) (t : T) j, (j < 3)%nat ->
            goes_on Background (returning t sentinel_at_3)
              (nth_error (repeat Millisecond 5)) tt j = true).
  { intros T t j Hj. destruct j as [|[|[|j]]]; try reflexivity. lia. }
  assert (Hgo0 : forall j, (j < 3)%nat ->
            goes_on Background sentinel_at_3
              (nth_error (repeat Millisecond 5)) tt j = true).
  { intros j Hj. destruct j as [|[|[|j]]]; try reflexivity. lia. }
  split; [exact five_milliseconds|].
  destruct (C3_negative_override_ends_the_loop Background
              (Limit 5 (Const Millisecond)) (nth_error (repeat Millisecond 5))
              World0 3 five_milliseconds) as (H0 & H1 & H2 & H3 & _).
  split; [exact (H0 unit sentinel_at_3 tt Hgo0 eq_refl)|].
  split; [exact (H1 Z unit 0 (returning 7 sentinel_at_3) tt (Hgo Z 7) eq_refl)|].
  split.
  - exact (H2 Z bool unit 0 false (returning (7, true) sentinel_at_3) tt
             (Hgo _ (7, true)) eq_refl).
  - exact (H3 Z bool Z unit 0 false 0 (returning (7, true, 9) sentinel_at_3) tt
             (Hgo _ (7, true, 9)) eq_refl).
Defined.

(** C4: for [k >= 1], when the [k]-th invocation takes place (each of
    the [k - 1] iterations before it failed transiently and led to a next
    one) and returns an error that wraps [ErrUnrecoverable], [Retry1]
    returns that error with the values of that invocation, the operation
    has been invoked [k] times, and exactly [k - 1] waits took place. *)
Theorem C4_unrecoverable_returns_at_once {T U : Type} (zero : T)
    (ctx : Context) (seq : Seq Duration) (g : Elems Duration) (f : Op T U)
    (u : U) (w : World) (k : nat) :
  yields seq g ->
  (1 <= k)%nat ->
  (forall j, (j < k - 1)%nat -> goes_on ctx f g u j = true) ->
  errors_Is (err (attempt f g u (k - 1))) ErrUnrecoverable = true ->
  (exists fuel0, forall fuel, (fuel0 <= fuel)%nat ->
     let a := attempt f g u (k - 1) in
     Retry1 zero ctx seq (counting f) (O, u) w fuel
     = mkResult Returned (value a, err a, (k, captured a))
         (logs (waits f g u (k - 1)) w))
  /\ List.length (waits f g u (k - 1)) = (k - 1)%nat.
Proof.
  intros Hseq Hk Hgo Hun. split; [|apply waits_length].
  destruct (stops_unrecoverable ctx f g u (k - 1) Hun) as [Hstop Hlast].
  destruct (Retry1_run_counting ctx f g zero seq u (k - 1) w Hseq Hgo Hstop)
    as [fuel0 H0].
  exists fuel0. intros fuel Hle. cbv zeta.
  rewrite (H0 fuel Hle), Hlast, app_nil_r.
  replace (Datatypes.S (k - 1)) with k by lia. reflexivity.
Qed.

Lemma C4_witness :
  yields_list (Limit 5 (Const Millisecond)) (repeat Millisecond 5)
  /\ (1 <= 4)%nat
  /\ (forall j, (j < 4 - 1)%nat ->
        goes_on Background unrecoverable_at_3
          (nth_error (repeat Millisecond 5)) tt j = true)
  /\ errors_Is
       (err (attempt unrecoverable_at_3 (nth_error (repeat Millisecond 5)) tt
               (4 - 1)))
       ErrUnrecoverable = true
  /\ exists fuel0, forall fuel, (fuel0 <= fuel)%nat ->
       Retry1 0 Background (Limit 5 (Const Millisecond))
         (counting unrecoverable_at_3) (O, tt) World0 fuel
       = mkResult Returned
           (-2, Some (wrapError "%w catastrophic error" ErrUnrecoverable),
            (4%nat, tt))
           {| trace := [Wait Millisecond; Wait Millisecond; Wait Millisecond] |}.
Proof.
  assert (Hgo : forall j, (j < 4 - 1)%nat ->
            goes_on Background unrecoverable_at_3
              (nth_error (repeat Millisecond 5)) tt j = true).
  { intros j Hj. destruct j as [|[|[|j]]]; try reflexivity. simpl in Hj. lia. }
  split; [exact five_milliseconds|]. split; [lia|]. split; [exact Hgo|].
  split; [reflexivity|].
  exact (proj1 (C4_unrecoverable_returns_at_once 0 Background
                  (Limit 5 (Const Millisecond))
                  (nth_error (repeat Millisecond 5)) unrecoverable_at_3 tt
                  World0 4 five_milliseconds (le_S _ _ (le_S _ _ (le_S _ _ (le_n 1))))
                  Hgo eq_refl)).
Defined.

(** C5: for [k >= 1], when the [k]-th invocation takes place (each of
    the [k - 1] iterations before it failed transiently and led to a next
    one) and returns a nil error, [Retry1] returns a nil error with the
    values of that invocation, the operation has been invoked [k] times,
    and exactly [k - 1] waits took place. *)
Theorem C5_success_returns_nil {T U : Type} (zero : T)
    (ctx : Context) (seq : Seq Duration) (g : Elems Duration) (f : Op T U)
    (u : U) (w : World) (k : nat) :
  yields seq g ->
  (1 <= k)%nat ->
  (forall j, (j < k - 1)%nat -> goes_on ctx f g u j = true) ->
  err (attempt f g u (k - 1)) = nil ->
  (exists fuel0, forall fuel, (fuel0 <= fuel)%nat ->
     let a := attempt f g u (k - 1) in
     Retry1 zero ctx seq (counting f) (O, u) w fuel
     = mkResult Returned (value a, nil, (k, captured a))
         (logs (waits f g u (k - 1)) w))
  /\ List.length (waits f g u (k - 1)) = (k - 1)%nat.
Proof.
  intros Hseq Hk Hgo Hnil. split; [|apply waits_length].
  destruct (stops_nil ctx f g u (k - 1)) as [Hstop Hlast].
  { rewrite Hnil. reflexivity. }
  destruct (Retry1_run_counting ctx f g zero seq u (k - 1) w Hseq Hgo Hstop)
    as [fuel0 H0].
  exists fuel0. intros fuel Hle. cbv zeta.
  rewrite (H0 fuel Hle), Hlast, app_nil_r, Hnil.
  replace (Datatypes.S (k - 1)) with k by lia. reflexivity.
Qed.

Lemma C5_witness :
  yields_list (Limit 5 (Const Millisecond)) (repeat Millisecond 5)
  /\ (1 <= 4)%nat
  /\ (forall j, (j < 4 - 1)%nat ->
        goes_on Background succeeds_at_3
          (nth_error (repeat Millisecond 5)) tt j = true)
  /\ err (attempt succeeds_at_3 (nth_error (repeat Millisecond 5)) tt (4 - 1))
     = nil
  /\ exists fuel0, forall fuel, (fuel0 <= fuel)%nat ->
       Retry1 0 Background (Limit 5 (Const Millisecond))
         (counting succeeds_at_3) (O, tt) World0 fuel
       = mkResult Returned (42, nil, (4%nat, tt))
           {| trace := [Wait Millisecond; Wait Millisecond; Wait Millisecond] |}.
Proof.
  assert (Hgo : forall j, (j < 4 - 1)%nat ->
            goes_on Background succeeds_at_3
              (nth_error (repeat Millisecond 5)) tt j = true).
  { intros j Hj. destruct j as [|[|[|j]]]; try reflexivity. simpl in Hj. lia. }
  split; [exact five_milliseconds|]. split; [lia|]. split; [exact Hgo|].
  split; [reflexivity|].
  exact (proj1 (C5_success_returns_nil 0 Background
                  (Limit 5 (Const Millisecond))
                  (nth_error (repeat Millisecond 5)) succeeds_at_3 tt
                  World0 4 (five_milliseconds) (le_S _ _ (le_S _ _ (le_S _ _ (le_n 1))))
                  Hgo eq_refl)).
Defined.

(** ** C7: Jitter *)

Section JitterBound.
Variable randN : nat -> Z -> Z.
Hypothesis randN_range : forall k n, 0 < n -> 0 <= randN k n < n.

Lemma Jitter_Const_samples (d : Duration) (S : Type)
    (yield : Yield Duration S) :
  forall fuel k out s w,
    Forall (fun x => 0 <= x <= d) out ->
    Forall (fun x => 0 <= x <= d)
      (fst (snd (final (Const d _ (Jitter_body randN (recording yield))
                          (k, (out, s)) w fuel)))).
Proof.
  induction fuel as [|fuel IH]; intros k out s w Hout; [exact Hout|].
  simpl. unfold Jitter_body at 1, rand_N.
  destruct (Z.leb_spec d 0) as [Hle|Hpos]; [exact Hout|].
  unfold recording at 1.
  destruct (yield (randN k d) s w) as [[c s'] w'].
  assert (Hout' : Forall (fun x => 0 <= x <= d) (out ++ [randN k d])).
  { apply Forall_app. split; [exact Hout|].
    constructor; [|constructor]. pose proof (randN_range k d Hpos). lia. }
  destruct c; [apply IH; exact Hout' | exact Hout' | exact Hout'].
Qed.

(** C7: for every duration [d], every random source and every consumer,
    each sample that [Jitter(Const(d))] hands to the consumer lies in
    [[0, d]].  (For [d <= 0] there is no sample: [rand.N] panics.) *)
Theorem C7_jitter_samples_in_range (d : Duration) (S : Type)
    (yield : Yield Duration S) (s : S) (w : World) (fuel : nat) :
  Forall (fun x => 0 <= x <= d)
    (fst (final (Jitter randN (Const d) _ (recording yield) ([], s) w fuel))).
Proof.
  unfold Jitter, map_final. cbn [final]. apply Jitter_Const_samples. constructor.
Qed.
End JitterBound.

Lemma modulo_source_range (k : nat) (n : Z) :
  0 < n -> 0 <= modulo_source k n < n.
Proof. intros H. unfold modulo_source. apply Z.mod_pos_bound. exact H. Qed.

Lemma C7_witness :
  (forall k n, 0 < n -> 0 <= modulo_source k n < n)
  /\ Forall (fun x => 0 <= x <= 10)
       (fst (final (Jitter modulo_source (Const 10) _
                      (recording (fun _ (s : unit) w => (Next, s, w)))
                      ([], tt) World0 4%nat)))
  /\ fst (final (Jitter modulo_source (Const 10) _
                   (recording (fun _ (s : unit) w => (Next, s, w)))
                   ([], tt) World0 4%nat)) = [0; 1; 2; 3].
Proof.
  split; [exact modulo_source_range|]. split; [|reflexivity].
  exact (C7_jitter_samples_in_range modulo_source modulo_source_range 10 unit
           (fun _ s w => (Next, s, w)) tt World0 4%nat).
Defined.

(** Where the duration is not positive, the first draw panics and the
    consumer is never called. *)
Lemma Jitter_Const_panics (randN : nat -> Z -> Z) (d : Duration) (S : Type)
    (yield : Yield Duration S) (s : S) (w : World) (fuel : nat) :
  d <= 0 ->
  Jitter randN (Const d) S yield s w (Datatypes.S fuel) = mkResult Panicked s w.
Proof.
  intros Hd. unfold Jitter. simpl. unfold rand_N.
  destruct (Z.leb_spec d 0); [reflexivity | lia].
Qed.

(** ** C8 and C10: Limit *)

Lemma live_dead {A : Type} (g : Elems A) (i : nat) :
  live g i = false -> forall k, (i <= k)%nat -> live g k = false.
Proof.
  intros Hd k Hk. induction Hk as [|k Hk IH]; [exact Hd|].
  simpl. rewrite IH. reflexivity.
Qed.

Lemma prefix_dead {A : Type} (g : Elems A) (i : nat) :
  live g (Datatypes.S i) = false ->
  forall k, (i <= k)%nat -> prefix g k = prefix g i.
Proof.
  intros Hd k Hk. induction Hk as [|k Hk IH]; [reflexivity|].
  cbn [prefix]. rewrite (live_dead g (Datatypes.S i) Hd (Datatypes.S k)) by lia.
  exact IH.
Qed.

Lemma prefix_step {A : Type} (g : Elems A) (i : nat) (x : A) :
  live g i = true -> g i = Some x -> prefix g (Datatypes.S i) = prefix g i ++ [x].
Proof.
  intros Hl Hg. cbn [prefix]. rewrite (live_step g i x Hl Hg), Hg. reflexivity.
Qed.

Lemma live_ext {A : Type} (g g' : Elems A) :
  (forall i, g i = g' i) -> forall k, live g k = live g' k.
Proof.
  intros Hext k. induction k as [|k IH]; [reflexivity|].
  simpl. rewrite IH, Hext. reflexivity.
Qed.

Lemma prefix_ext {A : Type} (g g' : Elems A) :
  (forall i, g i = g' i) -> forall k, prefix g k = prefix g' k.
Proof.
  intros Hext k. induction k as [|k IH]; [reflexivity|].
  cbn [prefix]. rewrite IH, (live_ext g g' Hext), Hext. reflexivity.
Qed.

Lemma live_nth_error {A : Type} (l : list A) (k : nat) :
  (k <= List.length l)%nat -> live (nth_error l) k = true.
Proof.
  intros Hk. apply live_below. intros j Hj. apply nth_error_Some. lia.
Qed.

Lemma prefix_nth_error {A : Type} (l : list A) (k : nat) :
  prefix (nth_error l) k = firstn k l.
Proof.
  induction k as [|k IH]; [reflexivity|].
  destruct (nth_error l k) as [x|] eqn:Hk.
  - assert (Hlt : (k < List.length l)%nat) by (apply nth_error_Some; congruence).
    rewrite (prefix_step _ k x (live_nth_error l k (Nat.lt_le_incl _ _ Hlt)) Hk).
    rewrite IH. clear IH Hlt. revert k Hk.
    induction l as [|y l IHl]; intros [|k] Hk; simpl in *; try discriminate.
    + congruence.
    + f_equal. apply IHl. exact Hk.
  - cbn [prefix]. cbn [live]. rewrite Hk, andb_false_r, IH.
    apply nth_error_None in Hk.
    rewrite !firstn_all2 by lia. reflexivity.
Qed.

Lemma prefix_forever {A : Type} (g : Elems A) :
  forever g ->
  forall k, List.length (prefix g k) = k
            /\ forall i, (i < k)%nat -> nth_error (prefix g k) i = g i.
Proof.
  intros Hf k. induction k as [|k [IHlen IHnth]].
  - split; [reflexivity | intros i Hi; lia].
  - destruct (g k) as [x|] eqn:Hk; [|exfalso; exact (Hf k Hk)].
    rewrite (prefix_step g k x (live_below g k (fun j _ => Hf j)) Hk).
    split.
    + rewrite length_app, IHlen. simpl. lia.
    + intros i Hi. destruct (Nat.eq_dec i k) as [->|Hne].
      * rewrite nth_error_app2 by lia. rewrite IHlen, Nat.sub_diag. simpl.
        symmetry. exact Hk.
      * rewrite nth_error_app1 by lia. apply IHnth. lia.
Qed.

(** Collecting what the first [n] elements of [g] are. *)
Lemma collect_first_n (n : Z) {A : Type} (g : Elems A) (w : World) :
  forall m i,
    live g i = true ->
    (i + m = Z.to_nat n)%nat ->
    range_from (first_n n g) i (list A) (fun x out w => (Next, out ++ [x], w))
      (prefix g i) w (Datatypes.S m)
    = mkResult Returned (prefix g (Z.to_nat n)) w.
Proof.
  induction m as [|m IH]; intros i Hl Hi.
  - simpl. unfold first_n.
    destruct (Z.ltb_spec (Z.of_nat i) n) as [Hlt|Hge]; [lia|].
    replace (Z.to_nat n) with i by lia. reflexivity.
  - rewrite range_from_step. unfold first_n at 1.
    destruct (Z.ltb_spec (Z.of_nat i) n) as [Hlt|Hge]; [|lia].
    destruct (g i) as [x|] eqn:Hg.
    + rewrite <- (prefix_step g i x Hl Hg).
      apply IH; [eapply live_step; eassumption | lia].
    + assert (Hd : live g (Datatypes.S i) = false)
        by (cbn [live]; rewrite Hl, Hg; reflexivity).
      rewrite (prefix_dead g i Hd (Z.to_nat n)) by lia. reflexivity.
Qed.

(** C8: for every integer [n] and every pause sequence [seq], a traversal
    of [Limit(n, seq)] yields the first elements of [seq], in order, up to
    [n] of them or to the end of [seq]: [min(n, |seq|)] values for a
    finite [seq], [n] values for one that never ends, and none at all
    for [n <= 0]; and this is what every consumer of it is given. *)
Theorem C8_limit_yields_first_n (n : Z) (seq : Seq Duration)
    (g : Elems Duration) (w : World) :
  yields seq g ->
  (exists fuel0, forall fuel, (fuel0 <= fuel)%nat ->
     collect (Limit n seq) w fuel
     = mkResult Returned (prefix g (Z.to_nat n)) w)
  /\ (forall l, (forall i, g i = nth_error l i) ->
        prefix g (Z.to_nat n) = firstn (Z.to_nat n) l
        /\ List.length (prefix g (Z.to_nat n))
           = Z.to_nat (Z.min n (Z.of_nat (List.length l))))
  /\ (forever g ->
        List.length (prefix g (Z.to_nat n)) = Z.to_nat n
        /\ forall i, (i < Z.to_nat n)%nat ->
             nth_error (prefix g (Z.to_nat n)) i = g i)
  /\ (n <= 0 -> prefix g (Z.to_nat n) = [])
  /\ yields (Limit n seq) (first_n n g).
Proof.
  intros Hseq. repeat split.
  - pose proof (collect_first_n n g w (Z.to_nat n) O eq_refl eq_refl) as Hc.
    destruct (Limit_yields n seq g Hseq (list Duration)
                (fun x out w => (Next, out ++ [x], w)) [] w
                (Datatypes.S (Z.to_nat n))) as [fuel0 H0].
    { simpl prefix in Hc. rewrite Hc. discriminate. }
    exists fuel0. intros fuel Hle. unfold collect. rewrite (H0 fuel Hle).
    exact Hc.
  - rewrite (prefix_ext g (nth_error l)) by assumption. apply prefix_nth_error.
  - rewrite (prefix_ext g (nth_error l)) by assumption.
    rewrite prefix_nth_error, length_firstn. lia.
  - apply prefix_forever. assumption.
  - apply prefix_forever. assumption.
  - intros Hn. replace (Z.to_nat n) with O by lia. reflexivity.
  - apply Limit_yields. exact Hseq.
Qed.

Lemma C8_witness :
  yields (Values [1; 2; 3]) (nth_error [1; 2; 3])
  /\ (exists fuel0, forall fuel, (fuel0 <= fuel)%nat ->
        collect (Limit 2 (Values [1; 2; 3])) World0 fuel
        = mkResult Returned [1; 2] World0)
  /\ (exists fuel0, forall fuel, (fuel0 <= fuel)%nat ->
        collect (Limit 7 (Values [1; 2; 3])) World0 fuel
        = mkResult Returned [1; 2; 3] World0)
  /\ (exists fuel0, forall fuel, (fuel0 <= fuel)%nat ->
        collect (Limit (-5) (Values [1; 2; 3])) World0 fuel
        = mkResult Returned [] World0).
Proof.
  split; [apply Values_yields|].
  split; [|split].
  - exact (proj1 (C8_limit_yields_first_n 2 (Values [1; 2; 3])
                    (nth_error [1; 2; 3]) World0 (Values_yields _))).
  - exact (proj1 (C8_limit_yields_first_n 7 (Values [1; 2; 3])
                    (nth_error [1; 2; 3]) World0 (Values_yields _))).
  - exact (proj1 (C8_limit_yields_first_n (-5) (Values [1; 2; 3])
                    (nth_error [1; 2; 3]) World0 (Values_yields _))).
Defined.

(** C10: for every [n <= 0] and every non-empty [seq], [Limit(n, seq)]
    hands nothing to its consumer, whatever the consumer, and still pulls
    one element, the first, from [seq]: the generator below it has
    produced exactly that element when the traversal returns. *)
Theorem C10_limit_zero_pulls_once (n : Z) (seq : Seq Duration)
    (g : Elems Duration) (x : Duration) (S : Type) (yield : Yield Duration S)
    (s : S) (w : World) :
  n <= 0 ->
  yields seq g ->
  g O = Some x ->
  exists fuel0, forall fuel, (fuel0 <= fuel)%nat ->
    Limit n (Traced seq) _ (recording yield) ([], s) w fuel
    = mkResult Returned ([], s) (log (Pull x) w).
Proof.
  intros Hn Hseq Hx.
  destruct (Hseq (Z * (list Duration * S))%type
              (fun x s w => Limit_body (recording yield) x s (log (Pull x) w))
              (n, ([], s)) w 1%nat) as [fuel0 H0].
  { simpl. rewrite Hx. simpl.
    destruct (Z.leb_spec n 0); [discriminate | lia]. }
  exists fuel0. intros fuel Hle. unfold Limit, Traced. rewrite (H0 fuel Hle).
  simpl. rewrite Hx. simpl. destruct (Z.leb_spec n 0); [reflexivity | lia].
Qed.

Lemma C10_witness :
  0 <= 0
  /\ yields (Const Second) (fun _ => Some Second)
  /\ (fun _ : nat => Some Second) O = Some Second
  /\ exists fuel0, forall fuel, (fuel0 <= fuel)%nat ->
       Limit 0 (Traced (Const Second)) _
         (recording (fun _ (s : unit) w => (Next, s, w))) ([], tt) World0 fuel
       = mkResult Returned ([], tt) {| trace := [Pull Second] |}.
Proof.
  split; [lia|]. split; [apply Const_yields|]. split; [reflexivity|].
  exact (C10_limit_zero_pulls_once 0 (Const Second) (fun _ => Some Second)
           Second unit (fun _ s w => (Next, s, w)) tt World0
           (Z.le_refl 0) (Const_yields Second) eq_refl).
Defined.

(** ** C9: what Backoff exposes when the sequence is exhausted *)

Section Exhaustion.
Variable ctx : Context.
Variable l : list Duration.

Lemma with_sentinel_below (i : nat) (x : Duration) :
  with_sentinel (nth_error l) i = Some x ->
  nth_error l i = Some x \/ (i = List.length l /\ x = SentinelDuration).
Proof.
  unfold with_sentinel. intros H.
  destruct (live (nth_error l) i) eqn:Hl; [|discriminate].
  destruct (nth_error l i) as [d|] eqn:Hd; [left; exact H|].
  right. injection H as <-. split; [|reflexivity].
  apply nth_error_None in Hd.
  destruct (Nat.eq_dec i (List.length l)) as [|Hne]; [assumption|].
  assert (Hdead : live (nth_error l) (Datatypes.S (List.length l)) = false).
  { cbn [live]. rewrite (proj2 (nth_error_None l (List.length l))) by lia.
    apply andb_false_r. }
  rewrite (live_dead _ _ Hdead i) in Hl by lia. discriminate.
Qed.

Lemma with_sentinel_at_end :
  with_sentinel (nth_error l) (List.length l) = Some SentinelDuration.
Proof.
  unfold with_sentinel. rewrite live_nth_error by lia.
  rewrite (proj2 (nth_error_None l (List.length l))) by lia. reflexivity.
Qed.

Lemma with_sentinel_in (i : nat) (x : Duration) :
  nth_error l i = Some x -> with_sentinel (nth_error l) i = Some x.
Proof.
  intros H. unfold with_sentinel.
  rewrite live_nth_error, H; [reflexivity|].
  apply Nat.lt_le_incl. apply nth_error_Some. congruence.
Qed.

(** The loop over a finite sequence and its sentinel ends. *)
Lemma finite_ends (S : Type) (yield : Yield Duration S) :
  forall fuel i s w,
    (1 <= fuel)%nat ->
    (List.length l + 2 <= i + fuel)%nat ->
    status (range_from (with_sentinel (nth_error l)) i S yield s w fuel)
    <> Starved.
Proof.
  induction fuel as [|fuel IH]; intros i s w H1 H2; [lia|].
  simpl. destruct (with_sentinel (nth_error l) i) as [x|] eqn:Hx;
    [|discriminate].
  destruct (yield x s w) as [[[ | | ] s'] w']; try discriminate.
  assert (Hi : (i <= List.length l)%nat).
  { destruct (with_sentinel_below i x Hx) as [Hn|[-> _]]; [|lia].
    apply Nat.lt_le_incl. apply nth_error_Some. congruence. }
  apply IH; lia.
Qed.

Lemma recorded_are_exposed (S : Type) (yield : Yield2 S) :
  forall fuel i seen s w,
    Forall (exposed l) seen ->
    Forall (exposed l)
      (fst (snd (final
         (range_from (with_sentinel (nth_error l)) i _
            (Backoff_body ctx (recording2 yield)) (i, (seen, s)) w fuel)))).
Proof.
  induction fuel as [|fuel IH]; intros i seen s w Hseen; [exact Hseen|].
  simpl. destruct (with_sentinel (nth_error l) i) as [x|] eqn:Hx;
    [|exact Hseen].
  unfold Backoff_body at 1, recording2 at 1.
  destruct (yield i x s w) as [[[c nw'] s'] w'].
  assert (Hseen' : Forall (exposed l) (seen ++ [(i, x)])).
  { apply Forall_app. split; [exact Hseen|].
    constructor; [|constructor]. exact (with_sentinel_below i x Hx). }
  destruct c; try exact Hseen'.
  destruct (nw' <? 0); [exact Hseen'|].
  destruct (Done ctx i); [exact Hseen'|].
  apply IH. exact Hseen'.
Qed.

Lemma skipn_nth_error (i : nat) (x : Duration) :
  nth_error l i = Some x ->
  skipn i l = x :: skipn (Datatypes.S i) l.
Proof.
  revert i. induction l as [|y l' IHl]; intros [|i] H; simpl in *;
    try discriminate.
  - congruence.
  - apply IHl. exact H.
Qed.

(** The passive loop over the elements from position [i] on. *)
Lemma watch_range :
  (forall d, In d l -> 0 <= d) ->
  (forall i, Done ctx i = false) ->
  forall m i seen w,
    (i + m = List.length l)%nat ->
    range_from (with_sentinel (nth_error l)) i _ (Backoff_body ctx watch)
      (i, seen) w (m + 2)
    = mkResult Returned
        (List.length l,
         seen ++ combine (seq i m) (skipn i l)
              ++ [(List.length l, SentinelDuration)])
        (logs (map Wait (skipn i l)) w).
Proof.
  intros Hnn Hbg. induction m as [|m IH]; intros i seen w Hi.
  - rewrite Nat.add_0_r in Hi. subst i. cbn [Nat.add].
    rewrite range_from_step, with_sentinel_at_end. simpl.
    rewrite skipn_all, logs_nil. reflexivity.
  - assert (Hlt : (i < List.length l)%nat) by lia.
    destruct (nth_error l i) as [x|] eqn:Hx;
      [|apply nth_error_None in Hx; lia].
    replace (Datatypes.S m + 2)%nat with (Datatypes.S (m + 2)) by lia.
    rewrite range_from_step, (with_sentinel_in i x Hx).
    unfold Backoff_body at 1, watch at 1.
    assert (Hx0 : 0 <= x) by (apply Hnn; eapply nth_error_In; exact Hx).
    destruct (Z.ltb_spec x 0) as [|_]; [lia|]. rewrite Hbg.
    rewrite IH by lia. rewrite (skipn_nth_error i x Hx).
    cbn [seq combine map]. rewrite <- app_assoc.
    f_equal. unfold log, logs. simpl. rewrite <- app_assoc. reflexivity.
Qed.

(** C9: when a finite pause sequence [s] of length [n] is given to
    [Backoff], every pair the loop body is given, whatever the body
    does, is an element of [s] at its position or, at position [n],
    where [s] is exhausted, exactly [SentinelDuration], which is -1ns;
    and a body that lets the loop run to the end (with pauses that are
    not negative and a context that is not cancelled) is given the
    elements of [s] and then, on the final iteration, ([n], -1ns). *)
Theorem C9_exhaustion_exposes_the_sentinel (seq : Seq Duration) (w : World) :
  yields_list seq l ->
  (forall (S : Type) (yield : Yield2 S) (s : S),
      exists fuel0, forall fuel, (fuel0 <= fuel)%nat ->
        let r := Backoff ctx seq _ (recording2 yield) ([], s) w fuel in
        status r <> Starved
        /\ forall i d, In (i, d) (fst (final r)) ->
             nth_error l i = Some d
             \/ (i = List.length l /\ d = SentinelDuration))
  /\ ((forall d, In d l -> 0 <= d) ->
      (forall i, Done ctx i = false) ->
      exists fuel0, forall fuel, (fuel0 <= fuel)%nat ->
        Backoff ctx seq _ watch [] w fuel
        = mkResult Returned
            (combine (List.seq O (List.length l)) l
             ++ [(List.length l, SentinelDuration)])
            (logs (map Wait l) w))
  /\ SentinelDuration = -1.
Proof.
  intros Hseq. split; [|split; [|reflexivity]].
  - intros S yield s.
    pose proof (finite_ends _ (Backoff_body ctx (recording2 yield))
                  (List.length l + 2) O (O, ([], s)) w) as Hst.
    destruct (Backoff_range ctx seq (nth_error l) _ (recording2 yield)
                ([], s) w (List.length l + 2) Hseq) as [fuel0 H0].
    { apply Hst; lia. }
    exists fuel0. intros fuel Hle. cbv zeta. rewrite (H0 fuel Hle).
    split; [apply Hst; lia|].
    intros i d Hin.
    pose proof (recorded_are_exposed _ yield (List.length l + 2) O [] s w
                  (Forall_nil _)) as Hall.
    rewrite Forall_forall in Hall. exact (Hall (i, d) Hin).
  - intros Hnn Hbg.
    pose proof (watch_range Hnn Hbg (List.length l) O [] w eq_refl) as Hrun.
    destruct (Backoff_range ctx seq (nth_error l) _ watch [] w
                (List.length l + 2) Hseq) as [fuel0 H0].
    { rewrite Hrun. discriminate. }
    exists fuel0. intros fuel Hle. rewrite (H0 fuel Hle), Hrun. reflexivity.
Qed.
End Exhaustion.

Lemma C9_witness :
  yields_list (Limit 5 (Const Millisecond)) (repeat Millisecond 5)
  /\ (forall d, In d (repeat Millisecond 5) -> 0 <= d)
  /\ (forall i, Done Background i = false)
  /\ exists fuel0, forall fuel, (fuel0 <= fuel)%nat ->
       Backoff Background (Limit 5 (Const Millisecond)) _ watch [] World0 fuel
       = mkResult Returned
           [(0%nat, Millisecond); (1%nat, Millisecond); (2%nat, Millisecond);
            (3%nat, Millisecond); (4%nat, Millisecond); (5%nat, -1)]
           {| trace := repeat (Wait Millisecond) 5 |}.
Proof.
  assert (Hnn : forall d, In d (repeat Millisecond 5) -> 0 <= d).
  { intros d Hd. apply repeat_spec in Hd. subst d. unfold Millisecond. lia. }
  split; [exact five_milliseconds|]. split; [exact Hnn|].
  split; [reflexivity|].
  exact (proj1 (proj2 (C9_exhaustion_exposes_the_sentinel Background
                         (repeat Millisecond 5) (Limit 5 (Const Millisecond))
                         World0 five_milliseconds))
           Hnn (fun _ => eq_refl)).
Defined.

(* ================================================================= *)
(** * More of the package *)

(** ** Finite sequences as slices *)

Lemma Values_fuel {A : Type} (S : Type) (yield : Yield A S) (fuel fuel' : nat) :
  forall (l : list A) s w,
    Values l S yield s w fuel = Values l S yield s w fuel'.
Proof.
  induction l as [|x l IH]; intros s w; [reflexivity|].
  simpl. destruct (yield x s w) as [[[ | | ] s'] w']; try reflexivity. apply IH.
Qed.

Lemma list_ends {A : Type} (l : list A) (S : Type) (yield : Yield A S) :
  forall fuel i s w,
    (1 <= fuel)%nat ->
    (List.length l < i + fuel)%nat ->
    status (range_from (nth_error l) i S yield s w fuel) <> Starved.
Proof.
  induction fuel as [|fuel IH]; intros i s w H1 H2; [lia|].
  simpl. destruct (nth_error l i) as [x|] eqn:Hx; [|discriminate].
  destruct (yield x s w) as [[[ | | ] s'] w']; try discriminate.
  assert (i < List.length l)%nat by (apply nth_error_Some; congruence).
  apply IH; lia.
Qed.

(** A sequence with the elements [l] runs the loop over the slice [l]. *)
Lemma yields_list_Values {A : Type} (seq : Seq A) (l : list A) :
  yields_list seq l ->
  forall S (yield : Yield A S) s w,
    exists fuel0, forall fuel, (fuel0 <= fuel)%nat ->
      seq S yield s w fuel = Values l S yield s w O.
Proof.
  intros Hseq S yield s w.
  assert (Hst : status (range_from (nth_error l) O S yield s w
                          (Datatypes.S (List.length l))) <> Starved)
    by (apply list_ends; lia).
  destruct (Hseq S yield s w _ Hst) as [fuel0 H0].
  exists fuel0. intros fuel Hle. rewrite (H0 fuel Hle).
  rewrite <- (Values_range S yield l _ s w Hst). apply Values_fuel.
Qed.

Lemma range_from_shift {A : Type} (g1 g2 : Elems A) (S : Type)
    (yield : Yield A S) :
  (forall j, g1 (Datatypes.S j) = g2 j) ->
  forall fuel i s w,
    range_from g1 (Datatypes.S i) S yield s w fuel
    = range_from g2 i S yield s w fuel.
Proof.
  intros Hsh. induction fuel as [|fuel IH]; intros i s w; [reflexivity|].
  simpl. rewrite Hsh. destruct (g2 i) as [x|]; [|reflexivity].
  destruct (yield x s w) as [[[ | | ] s'] w']; try reflexivity. apply IH.
Qed.

Lemma app_elems_nth_error {A : Type} (l l' : list A) (i : nat) :
  app_elems l (nth_error l') i = nth_error (l ++ l') i.
Proof.
  unfold app_elems. destruct (Nat.ltb_spec i (List.length l)) as [Hlt|Hge].
  - symmetry. apply nth_error_app1. exact Hlt.
  - symmetry. apply nth_error_app2. exact Hge.
Qed.

Lemma app_elems_app {A : Type} (l l' : list A) (g : Elems A) (i : nat) :
  app_elems l (app_elems l' g) i = app_elems (l ++ l') g i.
Proof.
  unfold app_elems. rewrite length_app.
  destruct (Nat.ltb_spec i (List.length l)) as [Hlt|Hge].
  - destruct (Nat.ltb_spec i (List.length l + List.length l')); [|lia].
    symmetry. apply nth_error_app1. exact Hlt.
  - destruct (Nat.ltb_spec (i - List.length l) (List.length l')) as [Hlt'|Hge'].
    + destruct (Nat.ltb_spec i (List.length l + List.length l')); [|lia].
      symmetry. apply nth_error_app2. exact Hge.
    + destruct (Nat.ltb_spec i (List.length l + List.length l')); [lia|].
      f_equal. lia.
Qed.

(** ** Concat *)

(** The loop over [l] and then [g], split where [l] ends. *)
Lemma range_app_elems (g : Elems Duration) (S : Type)
    (yield : Yield Duration S) (fuel : nat) :
  forall (l : list Duration) s w,
    range_from (app_elems l g) O S yield s w (List.length l + fuel)
    = let r1 := Values l _ (Concat_body yield) (false, s) w O in
      match status r1, fst (final r1) with
      | Returned, false =>
          range_from g O S yield (snd (final r1)) (world r1) fuel
      | _, _ => map_final snd r1
      end.
Proof.
  induction l as [|x l IH]; intros s w.
  - simpl. apply range_from_ext. intros j _. unfold app_elems. simpl.
    rewrite Nat.sub_0_r. reflexivity.
  - assert (Hv : Values (x :: l) _ (Concat_body yield) (false, s) w O
                 = match yield x s w with
                   | (Next, s', w') =>
                       Values l _ (Concat_body yield) (false, s') w' O
                   | (Break, s', w') => mkResult Returned (true, s') w'
                   | (Panic, s', w') => mkResult Panicked (false, s') w'
                   end).
    { simpl. unfold Concat_body at 1.
      destruct (yield x s w) as [[[ | | ] s'] w']; reflexivity. }
    cbv zeta. rewrite Hv. clear Hv.
    cbn [List.length Nat.add]. rewrite range_from_step.
    change (app_elems (x :: l) g O) with (Some x). cbv beta iota.
    destruct (yield x s w) as [[c s'] w']. destruct c; try reflexivity.
    rewrite (range_from_shift (app_elems (x :: l) g) (app_elems l g))
      by (intros j; reflexivity).
    rewrite IH. reflexivity.
Qed.

Lemma Concat_cons_yields (sq : Seq Duration) (rest : list (Seq Duration))
    (l : list Duration) (g : Elems Duration) :
  yields_list sq l ->
  yields (Concat rest) g ->
  yields (Concat (sq :: rest)) (app_elems l g).
Proof.
  intros Hsq Hrest S yield s w fuel Hst.
  assert (Hm : range_from (app_elems l g) O S yield s w (List.length l + fuel)
               = range_from (app_elems l g) O S yield s w fuel)
    by (apply range_from_mono; [exact Hst | lia]).
  rewrite <- Hm in Hst |- *. rewrite range_app_elems in Hst |- *. cbv zeta in *.
  destruct (yields_list_Values sq l Hsq _ (Concat_body yield) (false, s) w)
    as [f1 H1].
  destruct (Values l _ (Concat_body yield) (false, s) w O) as [st [b s1] w1] eqn:Hr1.
  cbn [status final world fst snd] in *.
  destruct st, b;
    try (exists f1; intros fuel' Hle; cbn [Concat]; rewrite (H1 fuel' Hle);
         reflexivity).
  destruct (Hrest S yield s1 w1 fuel Hst) as [f2 H2].
  exists (Nat.max f1 f2). intros fuel' Hle. cbn [Concat].
  rewrite (H1 fuel') by lia. cbn [status final world fst snd].
  apply H2. lia.
Qed.

Lemma Concat_nil_yields : yields (Concat []) (fun _ => None).
Proof.
  apply yields_of_eq. intros S yield s w [|fuel] Hst; [simpl in Hst; congruence|].
  reflexivity.
Qed.

(** The inner loop of [Concat] over a sequence that never ends is left
    only through [return]. *)
Lemma Concat_body_range (g : Elems Duration) (S : Type)
    (yield : Yield Duration S) :
  forall fuel i b s w,
    exists b',
      range_from g i _ (Concat_body yield) (b, s) w fuel
      = mkResult (status (range_from g i S yield s w fuel))
          (b', final (range_from g i S yield s w fuel))
          (world (range_from g i S yield s w fuel))
      /\ (forever g ->
          status (range_from g i S yield s w fuel) = Returned -> b' = true).
Proof.
  induction fuel as [|fuel IH]; intros i b s w.
  - exists b. split; [reflexivity|]. simpl. intros _ H. discriminate.
  - simpl. destruct (g i) as [x|] eqn:Hg.
    + unfold Concat_body at 1.
      destruct (yield x s w) as [[c s'] w']. destruct c.
      * apply IH.
      * exists true. split; reflexivity.
      * exists false. split; [reflexivity|]. simpl. intros _ H. discriminate.
    + exists b. split; [reflexivity|]. intros Hf _. exfalso. exact (Hf i Hg).
Qed.

Lemma Concat_forever_yields (sq : Seq Duration) (rest : list (Seq Duration))
    (g : Elems Duration) :
  yields sq g -> forever g -> yields (Concat (sq :: rest)) g.
Proof.
  intros Hsq Hf S yield s w fuel Hst.
  destruct (Concat_body_range g S yield fuel O false s w) as (b' & Hr & Hflag).
  destruct (Hsq _ (Concat_body yield) (false, s) w fuel) as [fuel0 H0].
  { rewrite Hr. exact Hst. }
  exists fuel0. intros fuel' Hle. cbn [Concat]. rewrite (H0 fuel' Hle), Hr.
  specialize (Hflag Hf).
  destruct (range_from g O S yield s w fuel) as [st sf wf].
  cbn [status final world fst snd] in *.
  destruct st; try reflexivity.
  rewrite (Hflag eq_refl). reflexivity.
Qed.

(** X1: [Concat] of finite sequences is the finite sequence of their
    elements, those of the first sequence, then those of the second, and
    so on; [Concat()] of no sequence yields nothing. *)
Theorem X1_concat_of_finite_sequences (seqs : list (Seq Duration))
    (ls : list (list Duration)) :
  Forall2 yields_list seqs ls ->
  yields_list (Concat seqs) (List.concat ls).
Proof.
  intros H. induction H as [|sq l seqs ls Hsq _ IH].
  - apply (yields_ext _ _ _ Concat_nil_yields). intros [|i]; reflexivity.
  - apply (yields_ext _ _ _ (Concat_cons_yields sq seqs l _ Hsq IH)).
    intros i. simpl. apply app_elems_nth_error.
Qed.

Lemma X1_witness :
  Forall2 yields_list [Limit 2 (Const Second); Values [5; 6]; Concat []]
    [[Second; Second]; [5; 6]; []]
  /\ yields_list (Concat [Limit 2 (Const Second); Values [5; 6]; Concat []])
       [Second; Second; 5; 6].
Proof.
  assert (H : Forall2 yields_list
                [Limit 2 (Const Second); Values [5; 6]; Concat []]
                [[Second; Second]; [5; 6]; []]).
  { constructor; [exact (Limit_Const_yields 2 Second)|].
    constructor; [apply Values_yields|].
    constructor; [|constructor].
    apply (yields_ext _ _ _ Concat_nil_yields). intros [|i]; reflexivity. }
  split; [exact H|].
  exact (X1_concat_of_finite_sequences _ _ H).
Defined.

(** X2: in [Concat], the sequences that follow one that never ends are
    never traversed: after finite sequences with the elements [ls] and a
    sequence that yields [g] forever, [Concat] yields the elements of
    [ls] and then [g], whatever the later arguments are. *)
Theorem X2_concat_stays_in_a_forever_sequence (seqs : list (Seq Duration))
    (ls : list (list Duration)) (sq : Seq Duration) (g : Elems Duration)
    (rest : list (Seq Duration)) :
  Forall2 yields_list seqs ls ->
  yields sq g ->
  forever g ->
  yields (Concat (seqs ++ sq :: rest)) (app_elems (List.concat ls) g)
  /\ forever (app_elems (List.concat ls) g).
Proof.
  intros H Hsq Hf. split.
  - induction H as [|s1 l seqs ls Hs1 _ IH].
    + apply (yields_ext _ _ _ (Concat_forever_yields sq rest g Hsq Hf)).
      intros i. unfold app_elems. simpl. rewrite Nat.sub_0_r. reflexivity.
    + apply (yields_ext _ _ _ (Concat_cons_yields s1 _ l _ Hs1 IH)).
      intros i. simpl. apply app_elems_app.
  - intros i. unfold app_elems.
    destruct (Nat.ltb_spec i (List.length (List.concat ls))) as [Hlt|Hge].
    + apply nth_error_Some. exact Hlt.
    + apply Hf.
Qed.

Lemma X2_witness :
  Forall2 yields_list [Limit 3 (Const Second)] [[Second; Second; Second]]
  /\ yields (Const 7) (fun _ => Some 7)
  /\ forever (fun _ : nat => Some 7)
  /\ yields (Concat ([Limit 3 (Const Second)] ++ Const 7 :: [Values [1; 2]]))
       (app_elems (List.concat [[Second; Second; Second]]) (fun _ => Some 7)).
Proof.
  assert (H : Forall2 yields_list [Limit 3 (Const Second)]
                [[Second; Second; Second]]).
  { constructor; [exact (Limit_Const_yields 3 Second) | constructor]. }
  assert (Hf : forever (fun _ : nat => Some 7)) by (intros i; discriminate).
  split; [exact H|]. split; [apply Const_yields|]. split; [exact Hf|].
  exact (proj1 (X2_concat_stays_in_a_forever_sequence _ _ (Const 7) _
                  [Values [1; 2]] H (Const_yields 7) Hf)).
Defined.

(** ** Limit once more *)

(** X3: [Limit(m, Limit(n, seq))] yields what [Limit(min(m, n), seq)]
    yields: the first [min(m, n)] elements of [seq]. *)
Theorem X3_limit_of_limit (m n : Z) (seq : Seq Duration) (g : Elems Duration) :
  yields seq g ->
  yields (Limit m (Limit n seq)) (first_n (Z.min m n) g)
  /\ yields (Limit (Z.min m n) seq) (first_n (Z.min m n) g).
Proof.
  intros Hseq. split; [|apply Limit_yields; exact Hseq].
  apply (yields_ext _ (first_n m (first_n n g))).
  - apply Limit_yields, Limit_yields, Hseq.
  - intros i. unfold first_n.
    destruct (Z.ltb_spec (Z.of_nat i) m), (Z.ltb_spec (Z.of_nat i) n),
      (Z.ltb_spec (Z.of_nat i) (Z.min m n)); try reflexivity; lia.
Qed.

Lemma X3_witness :
  yields (Const Second) (fun _ => Some Second)
  /\ yields (Limit 5 (Limit 2 (Const Second)))
       (first_n (Z.min 5 2) (fun _ => Some Second)).
Proof.
  split; [apply Const_yields|].
  exact (proj1 (X3_limit_of_limit 5 2 (Const Second) _ (Const_yields Second))).
Defined.

Lemma prefix_length_live {A : Type} (g : Elems A) (i : nat) :
  live g i = true -> List.length (prefix g i) = i.
Proof.
  induction i as [|i IH]; intros Hl; [reflexivity|].
  cbn [prefix]. rewrite Hl. cbn [live] in Hl.
  apply andb_prop in Hl. destruct Hl as [Hl Hg].
  destruct (g i); [|discriminate].
  rewrite length_app, (IH Hl). simpl. lia.
Qed.

Lemma prefix_length_le {A : Type} (g : Elems A) (k : nat) :
  (List.length (prefix g k) <= k)%nat.
Proof.
  induction k as [|k IH]; [simpl; lia|].
  cbn [prefix]. destruct (live g (Datatypes.S k)); [|lia].
  rewrite length_app. destruct (g k); simpl; lia.
Qed.

(** One traversal of [Limit], with what it leaves in [n]. *)
Lemma Limit_traversal_range (n : Z) (g : Elems Duration) (w : World) :
  forall m i,
    live g i = true ->
    (i + m = Z.to_nat n)%nat ->
    range_from g i _ (Limit_body (fun x out w => (Next, out ++ [x], w)))
      (n - Z.of_nat i, prefix g i) w (Datatypes.S m)
    = mkResult Returned
        (n - Z.of_nat (List.length (prefix g (Z.to_nat n))),
         prefix g (Z.to_nat n)) w.
Proof.
  induction m as [|m IH]; intros i Hl Hi.
  - rewrite Nat.add_0_r in Hi. subst i. rewrite (prefix_length_live g _ Hl).
    simpl. destruct (g (Z.to_nat n)); [|reflexivity].
    destruct (Z.leb_spec (n - Z.of_nat (Z.to_nat n)) 0); [reflexivity|lia].
  - rewrite range_from_step. destruct (g i) as [x|] eqn:Hg.
    + unfold Limit_body at 1.
      destruct (Z.leb_spec (n - Z.of_nat i) 0); [lia|].
      rewrite <- (prefix_step g i x Hl Hg).
      replace (n - Z.of_nat i - 1) with (n - Z.of_nat (Datatypes.S i)) by lia.
      apply IH; [eapply live_step; eassumption | lia].
    + assert (Hd : live g (Datatypes.S i) = false)
        by (cbn [live]; rewrite Hl, Hg; reflexivity).
      rewrite (prefix_dead g i Hd (Z.to_nat n)) by lia.
      rewrite (prefix_length_live g i Hl). reflexivity.
Qed.

(** X4: the iterator that [Limit(n, seq)] returns counts down its [n]
    over all its traversals.  A second traversal of the same iterator
    starts [seq] afresh but yields only what the first traversal left of
    [n]: the two traversals together yield at most [n] elements, and
    after a first traversal of a sequence that never ends the second one
    yields nothing. *)
Theorem X4_limit_counts_over_all_traversals (n : Z) (seq : Seq Duration)
    (g : Elems Duration) (w : World) :
  yields seq g ->
  (exists fuel0, forall fuel, (fuel0 <= fuel)%nat ->
     Limit_twice n seq w fuel
     = mkResult Returned
         (prefix g (Z.to_nat n),
          prefix g (Z.to_nat
                      (n - Z.of_nat (List.length (prefix g (Z.to_nat n))))))
         w)
  /\ (List.length (prefix g (Z.to_nat n))
      + List.length
          (prefix g (Z.to_nat
                       (n - Z.of_nat (List.length (prefix g (Z.to_nat n))))))
      <= Z.to_nat n)%nat
  /\ (forever g ->
      prefix g (Z.to_nat (n - Z.of_nat (List.length (prefix g (Z.to_nat n)))))
      = []).
Proof.
  intros Hseq. split; [|split].
  - pose proof (Limit_traversal_range n g w (Z.to_nat n) O eq_refl eq_refl) as H1.
    set (n' := n - Z.of_nat (List.length (prefix g (Z.to_nat n)))) in *.
    pose proof (Limit_traversal_range n' g w (Z.to_nat n') O eq_refl eq_refl) as H2.
    rewrite Z.sub_0_r in H1, H2. cbn [prefix] in H1, H2.
    destruct (Hseq _ (Limit_body (fun x out w => (Next, out ++ [x], w)))
                (n, []) w _ ltac:(rewrite H1; discriminate)) as [f1 E1].
    destruct (Hseq _ (Limit_body (fun x out w => (Next, out ++ [x], w)))
                (n', []) w _ ltac:(rewrite H2; discriminate)) as [f2 E2].
    exists (Nat.max f1 f2). intros fuel Hle.
    unfold Limit_twice, Limit_traversal.
    rewrite (E1 fuel) by lia. rewrite H1. cbn [status final world fst snd].
    rewrite (E2 fuel) by lia. rewrite H2. reflexivity.
  - pose proof (prefix_length_le g (Z.to_nat n)).
    pose proof (prefix_length_le g
                  (Z.to_nat (n - Z.of_nat (List.length (prefix g (Z.to_nat n)))))).
    lia.
  - intros Hf. destruct (prefix_forever g Hf (Z.to_nat n)) as [Hlen _].
    rewrite Hlen. replace (Z.to_nat (n - Z.of_nat (Z.to_nat n))) with O by lia.
    reflexivity.
Qed.

Lemma X4_witness :
  yields (Values [1; 2; 3]) (nth_error [1; 2; 3])
  /\ (exists fuel0, forall fuel, (fuel0 <= fuel)%nat ->
        Limit_twice 5 (Values [1; 2; 3]) World0 fuel
        = mkResult Returned ([1; 2; 3], [1; 2]) World0)
  /\ (exists fuel0, forall fuel, (fuel0 <= fuel)%nat ->
        Limit_twice 2 (Values [1; 2; 3]) World0 fuel
        = mkResult Returned ([1; 2], []) World0).
Proof.
  split; [apply Values_yields|]. split.
  - exact (proj1 (X4_limit_counts_over_all_traversals 5 (Values [1; 2; 3])
                    (nth_error [1; 2; 3]) World0 (Values_yields _))).
  - exact (proj1 (X4_limit_counts_over_all_traversals 2 (Values [1; 2; 3])
                    (nth_error [1; 2; 3]) World0 (Values_yields _))).
Defined.

(** ** Jitter once more *)

Section JitterElements.
Variable randN : nat -> Z -> Z.
Variable g : Elems Duration.

Lemma jittered_live (i : nat) :
  live (jittered randN g) i = live g i.
Proof.
  induction i as [|i IH]; [reflexivity|].
  cbn [live]. rewrite IH. unfold jittered. destruct (g i); reflexivity.
Qed.

Lemma Jitter_panic_range (k : nat) (d : Duration) (w : World) :
  (forall j, (j < k)%nat -> exists dj, g j = Some dj /\ 0 < dj) ->
  g k = Some d ->
  d <= 0 ->
  forall m i,
    (i + m = k)%nat ->
    range_from g i _
      (Jitter_body randN (fun x out w => (Next, out ++ [x], w)))
      (i, prefix (jittered randN g) i) w (Datatypes.S m)
    = mkResult Panicked (k, prefix (jittered randN g) k) w.
Proof.
  intros Hpos Hk Hd. induction m as [|m IH]; intros i Hi.
  - rewrite Nat.add_0_r in Hi. subst i. simpl. rewrite Hk. simpl.
    unfold rand_N. destruct (Z.leb_spec d 0); [reflexivity|lia].
  - destruct (Hpos i ltac:(lia)) as (di & Hgi & Hdi).
    rewrite range_from_step, Hgi. unfold Jitter_body at 1, rand_N.
    destruct (Z.leb_spec di 0); [lia|].
    rewrite <- (prefix_step (jittered randN g) i (randN i di)).
    + apply IH. lia.
    + rewrite jittered_live. apply live_below. intros j Hj.
      destruct (Hpos j ltac:(lia)) as (dj & Hgj & _). congruence.
    + unfold jittered. rewrite Hgi. reflexivity.
Qed.

(** X5: [Jitter] panics at the first duration of its input that is not
    positive (zero included): the consumer has been given one sample for
    each of the durations before it, and the traversal ends in the panic
    of [rand.N]. *)
Theorem X5_jitter_panics_at_a_duration_that_is_not_positive
    (seq : Seq Duration) (k : nat) (d : Duration) (w : World) :
  yields seq g ->
  (forall j, (j < k)%nat -> exists dj, g j = Some dj /\ 0 < dj) ->
  g k = Some d ->
  d <= 0 ->
  (exists fuel0, forall fuel, (fuel0 <= fuel)%nat ->
     collect (Jitter randN seq) w fuel
     = mkResult Panicked (prefix (jittered randN g) k) w)
  /\ List.length (prefix (jittered randN g) k) = k.
Proof.
  intros Hseq Hpos Hk Hd. split.
  - pose proof (Jitter_panic_range k d w Hpos Hk Hd k O eq_refl) as Hr.
    cbn [prefix] in Hr.
    destruct (Hseq _ (Jitter_body randN (fun x out w => (Next, out ++ [x], w)))
                (O, []) w _ ltac:(rewrite Hr; discriminate)) as [fuel0 H0].
    exists fuel0. intros fuel Hle. unfold collect, Jitter.
    rewrite (H0 fuel Hle), Hr. reflexivity.
  - apply prefix_length_live. rewrite jittered_live. apply live_below.
    intros j Hj. destruct (Hpos j Hj) as (dj & Hgj & _). congruence.
Qed.

(** X6: on durations that are all positive, [Jitter] yields exactly one
    sample per duration of its input, in order, the sample for [d] lying
    in [[0, d)], and it ends where its input ends. *)
Theorem X6_jitter_one_sample_per_duration (seq : Seq Duration) :
  (forall k n, 0 < n -> 0 <= randN k n < n) ->
  yields seq g ->
  (forall i d, g i = Some d -> 0 < d) ->
  yields (Jitter randN seq) (jittered randN g)
  /\ (forall i d, g i = Some d ->
        exists x, jittered randN g i = Some x /\ 0 <= x < d)
  /\ (forall i, g i = None -> jittered randN g i = None).
Proof.
  intros Hrange Hseq Hpos. split; [|split].
  - apply Jitter_yields; assumption.
  - intros i d Hg. exists (randN i d). unfold jittered. rewrite Hg.
    split; [reflexivity|]. apply Hrange. eapply Hpos. exact Hg.
  - intros i Hg. unfold jittered. rewrite Hg. reflexivity.
Qed.
End JitterElements.

Lemma X5_witness :
  yields (Values [5; 4; 0; 3]) (nth_error [5; 4; 0; 3])
  /\ (forall j, (j < 2)%nat ->
        exists dj, nth_error [5; 4; 0; 3] j = Some dj /\ 0 < dj)
  /\ nth_error [5; 4; 0; 3] 2 = Some 0
  /\ 0 <= 0
  /\ exists fuel0, forall fuel, (fuel0 <= fuel)%nat ->
       collect (Jitter modulo_source (Values [5; 4; 0; 3])) World0 fuel
       = mkResult Panicked [0; 1] World0.
Proof.
  assert (Hpos : forall j, (j < 2)%nat ->
            exists dj, nth_error [5; 4; 0; 3] j = Some dj /\ 0 < dj).
  { intros j Hj. destruct j as [|[|j]].
    - exists 5. split; [reflexivity | lia].
    - exists 4. split; [reflexivity | lia].
    - lia. }
  split; [apply Values_yields|]. split; [exact Hpos|].
  split; [reflexivity|]. split; [lia|].
  exact (proj1 (X5_jitter_panics_at_a_duration_that_is_not_positive
                  modulo_source (nth_error [5; 4; 0; 3]) (Values [5; 4; 0; 3])
                  2 0 World0 (Values_yields _) Hpos eq_refl (Z.le_refl 0))).
Defined.

Lemma X6_witness :
  (forall k n, 0 < n -> 0 <= modulo_source k n < n)
  /\ yields (Limit 3 (Const 10)) (nth_error (repeat 10 3))
  /\ (forall i d, nth_error (repeat 10 3) i = Some d -> 0 < d)
  /\ yields (Jitter modulo_source (Limit 3 (Const 10)))
       (jittered modulo_source (nth_error (repeat 10 3))).
Proof.
  assert (Hpos : forall i d, nth_error (repeat 10 3) i = Some d -> 0 < d).
  { intros i d H. apply nth_error_In, repeat_spec in H. subst d. lia. }
  split; [exact modulo_source_range|].
  split; [exact (Limit_Const_yields 3 10)|]. split; [exact Hpos|].
  exact (proj1 (X6_jitter_one_sample_per_duration modulo_source
                  (nth_error (repeat 10 3)) (Limit 3 (Const 10))
                  modulo_source_range (Limit_Const_yields 3 10) Hpos)).
Defined.

(** ** IntervalJitter, FactorJitter and Exp *)

Lemma wrap64_small (z : Z) : int64 z -> wrap64 z = z.
Proof.
  unfold int64, wrap64. intros H. rewrite Z.mod_small by lia. lia.
Qed.

Section IntervalJitterElements.
Variable randN : nat -> Z -> Z.
Variable lo hi : Duration.

Lemma IntervalJitter_range (g : Elems Duration) (S : Type)
    (yield : Yield Duration S) :
  0 < wrap64 (hi - lo) ->
  forall fuel i s w,
    map_final snd
      (range_from g i _ (IntervalJitter_body randN lo hi yield) (i, s) w fuel)
    = range_from (interval_jittered randN lo hi g) i S yield s w fuel.
Proof.
  intros Hw. induction fuel as [|fuel IH]; intros i s w; [reflexivity|].
  simpl. unfold interval_jittered at 1.
  destruct (g i) as [d|]; [|reflexivity].
  simpl. unfold rand_N.
  destruct (Z.leb_spec (wrap64 (hi - lo)) 0) as [Hle|_]; [lia|].
  destruct (yield _ s w) as [[c s'] w']. destruct c; try reflexivity.
  apply IH.
Qed.

(** X7: for [lo < hi] (and [hi - lo] an int64), [IntervalJitter] yields
    one duration per duration of its input and ends where the input
    ends; what it yields is never negative, and where the sums [d + lo]
    and [d + hi] do not overflow it lies between [max(0, d + lo)] and
    [max(0, d + hi - 1)]: the upper end [d + hi] itself is not reached. *)
Theorem X7_interval_jitter_range (seq : Seq Duration) (g : Elems Duration) :
  (forall k n, 0 < n -> 0 <= randN k n < n) ->
  yields seq g ->
  int64 lo -> int64 hi -> int64 (hi - lo) -> lo < hi ->
  yields (IntervalJitter randN lo hi seq) (interval_jittered randN lo hi g)
  /\ (forall i, g i = None -> interval_jittered randN lo hi g i = None)
  /\ (forall i d, g i = Some d ->
        exists x, interval_jittered randN lo hi g i = Some x
                  /\ 0 <= x
                  /\ (int64 (d + lo) -> int64 (d + hi) ->
                      Z.max 0 (d + lo) <= x <= Z.max 0 (d + hi - 1))).
Proof.
  intros Hrange Hseq Hlo Hhi Hdiff Hlt.
  assert (Hw : wrap64 (hi - lo) = hi - lo) by (apply wrap64_small; exact Hdiff).
  split; [|split].
  - intros S yield s w fuel Hst.
    pose proof (IntervalJitter_range g S yield ltac:(lia) fuel O s w) as Hr.
    destruct (Hseq _ (IntervalJitter_body randN lo hi yield) (O, s) w fuel)
      as [fuel0 H0].
    { rewrite <- Hr in Hst. exact Hst. }
    exists fuel0. intros fuel' Hle. unfold IntervalJitter.
    rewrite (H0 fuel' Hle). exact Hr.
  - intros i Hg. unfold interval_jittered. rewrite Hg. reflexivity.
  - intros i d Hg. unfold interval_jittered. rewrite Hg. simpl.
    eexists. split; [reflexivity|]. split; [lia|].
    intros Hdlo Hdhi. rewrite Hw.
    pose proof (Hrange i (hi - lo) ltac:(lia)) as Hr.
    unfold int64 in *.
    rewrite (wrap64_small (lo + randN i (hi - lo))) by (unfold int64; lia).
    rewrite wrap64_small by (unfold int64; lia).
    lia.
Qed.

(** X8: when [hi - lo], as int64 arithmetic computes it, is not positive
    (so for [lo = hi], and for [hi < lo] when the difference does not
    overflow), [IntervalJitter] panics in [rand.N] at the first duration
    of its input, before the consumer is given anything; on an empty
    input it returns. *)
Theorem X8_interval_jitter_panics_on_an_empty_interval (seq : Seq Duration)
    (g : Elems Duration) (S : Type) (yield : Yield Duration S) (s : S)
    (w : World) :
  yields seq g ->
  wrap64 (hi - lo) <= 0 ->
  exists fuel0, forall fuel, (fuel0 <= fuel)%nat ->
    IntervalJitter randN lo hi seq S yield s w fuel
    = match g O with
      | Some _ => mkResult Panicked s w
      | None => mkResult Returned s w
      end.
Proof.
  intros Hseq Hw.
  assert (Hr : range_from g O _ (IntervalJitter_body randN lo hi yield)
                 (O, s) w 1
               = match g O with
                 | Some _ => mkResult Panicked (O, s) w
                 | None => mkResult Returned (O, s) w
                 end).
  { simpl. destruct (g O); [|reflexivity]. simpl. unfold rand_N.
    destruct (Z.leb_spec (wrap64 (hi - lo)) 0); [reflexivity|lia]. }
  destruct (Hseq _ (IntervalJitter_body randN lo hi yield) (O, s) w 1%nat)
    as [fuel0 H0].
  { rewrite Hr. destruct (g O); discriminate. }
  exists fuel0. intros fuel Hle. unfold IntervalJitter.
  rewrite (H0 fuel Hle), Hr. destruct (g O); reflexivity.
Qed.
End IntervalJitterElements.

Lemma X7_witness :
  (forall k n, 0 < n -> 0 <= modulo_source k n < n)
  /\ yields (Const Second) (fun _ => Some Second)
  /\ int64 (-2) /\ int64 3 /\ int64 (3 - -2) /\ -2 < 3
  /\ yields (IntervalJitter modulo_source (-2) 3 (Const Second))
       (interval_jittered modulo_source (-2) 3 (fun _ => Some Second)).
Proof.
  split; [exact modulo_source_range|]. split; [apply Const_yields|].
  split; [unfold int64; lia|]. split; [unfold int64; lia|].
  split; [unfold int64; lia|]. split; [lia|].
  exact (proj1 (X7_interval_jitter_range modulo_source (-2) 3 (Const Second)
                  (fun _ => Some Second) modulo_source_range
                  (Const_yields Second)
                  ltac:(unfold int64; lia) ltac:(unfold int64; lia)
                  ltac:(unfold int64; lia) ltac:(lia))).
Defined.

Lemma X8_witness :
  yields (Const Second) (fun _ => Some Second)
  /\ wrap64 (3 - 3) <= 0
  /\ exists fuel0, forall fuel, (fuel0 <= fuel)%nat ->
       IntervalJitter modulo_source 3 3 (Const Second) _
         (fun x out w => (Next, out ++ [x], w)) [] World0 fuel
       = mkResult Panicked [] World0.
Proof.
  split; [apply Const_yields|]. split; [vm_compute; discriminate|].
  exact (X8_interval_jitter_panics_on_an_empty_interval modulo_source 3 3
           (Const Second) (fun _ => Some Second) _
           (fun x out w => (Next, out ++ [x], w)) [] World0
           (Const_yields Second) ltac:(vm_compute; discriminate)).
Defined.

Lemma FactorJitter_range (times : nat -> Duration -> Duration)
    (g : Elems Duration) (S : Type) (yield : Yield Duration S) :
  forall fuel i s w,
    map_final snd
      (range_from g i _ (FactorJitter_body times yield) (i, s) w fuel)
    = range_from (factor_jittered times g) i S yield s w fuel.
Proof.
  induction fuel as [|fuel IH]; intros i s w; [reflexivity|].
  simpl. unfold factor_jittered at 1.
  destruct (g i) as [d|]; [|reflexivity].
  simpl. destruct (yield _ s w) as [[c s'] w']. destruct c; try reflexivity.
  apply IH.
Qed.

(** X9: [FactorJitter] never panics and never yields a negative duration,
    whatever the input durations, the bounds and the random numbers are:
    it yields one duration per duration of its input, the product clamped
    at zero, and ends where the input ends. *)
Theorem X9_factor_jitter_clamps (times : nat -> Duration -> Duration)
    (seq : Seq Duration) (g : Elems Duration) :
  yields seq g ->
  yields (FactorJitter times seq) (factor_jittered times g)
  /\ (forall i, g i = None -> factor_jittered times g i = None)
  /\ (forall i d, g i = Some d ->
        exists x, factor_jittered times g i = Some x
                  /\ 0 <= x /\ (0 <= times i d -> x = times i d)).
Proof.
  intros Hseq. split; [|split].
  - intros S yield s w fuel Hst.
    pose proof (FactorJitter_range times g S yield fuel O s w) as Hr.
    destruct (Hseq _ (FactorJitter_body times yield) (O, s) w fuel)
      as [fuel0 H0].
    { rewrite <- Hr in Hst. exact Hst. }
    exists fuel0. intros fuel' Hle. unfold FactorJitter.
    rewrite (H0 fuel' Hle). exact Hr.
  - intros i Hg. unfold factor_jittered. rewrite Hg. reflexivity.
  - intros i d Hg. unfold factor_jittered. rewrite Hg. simpl.
    eexists. split; [reflexivity|]. split; lia.
Qed.

Lemma X9_witness :
  yields (Values [5; -4; 0]) (nth_error [5; -4; 0])
  /\ yields (FactorJitter (fun k d => d * 2 - 1) (Values [5; -4; 0]))
       (factor_jittered (fun k d => d * 2 - 1) (nth_error [5; -4; 0])).
Proof.
  split; [apply Values_yields|].
  exact (proj1 (X9_factor_jitter_clamps (fun k d => d * 2 - 1)
                  (Values [5; -4; 0]) _ (Values_yields _))).
Defined.

Lemma Exp_range (scale : Duration -> Duration) (initial : Duration)
    (S : Type) (yield : Yield Duration S) :
  forall fuel i s w,
    Exp scale (Nat.iter i scale initial) S yield s w fuel
    = range_from (orbit scale initial) i S yield s w fuel.
Proof.
  induction fuel as [|fuel IH]; intros i s w; [reflexivity|].
  simpl. destruct (yield _ s w) as [[c s'] w']. destruct c; try reflexivity.
  apply (IH (Datatypes.S i)).
Qed.

(** X10: whatever the factor, [Exp] never ends by itself and starts with
    [initial] as it is; each later duration is the scaled previous one.
    So [Limit(n, Exp(initial, factor))] is a finite sequence of exactly
    [n] durations (none for [n <= 0]). *)
Theorem X10_exp_never_ends (scale : Duration -> Duration)
    (initial : Duration) (n : Z) :
  yields (Exp scale initial) (orbit scale initial)
  /\ forever (orbit scale initial)
  /\ orbit scale initial O = Some initial
  /\ (forall i, orbit scale initial (Datatypes.S i)
                = option_map scale (orbit scale initial i))
  /\ yields_list (Limit n (Exp scale initial))
       (map (fun i => Nat.iter i scale initial) (List.seq O (Z.to_nat n)))
  /\ List.length
       (map (fun i => Nat.iter i scale initial) (List.seq O (Z.to_nat n)))
     = Z.to_nat n.
Proof.
  assert (Hy : yields (Exp scale initial) (orbit scale initial)).
  { apply yields_of_eq. intros S yield s w fuel _.
    exact (Exp_range scale initial S yield fuel O s w). }
  split; [exact Hy|]. split; [intros i; discriminate|].
  split; [reflexivity|]. split; [intros i; reflexivity|].
  split; [|rewrite length_map, length_seq; reflexivity].
  apply (yields_ext _ _ _ (Limit_yields n _ _ Hy)).
  intros i. unfold first_n, orbit.
  destruct (Z.ltb_spec (Z.of_nat i) n) as [Hlt|Hge].
  - symmetry. rewrite nth_error_map, nth_error_seq.
    destruct (Nat.ltb_spec i (Z.to_nat n)); [reflexivity | lia].
  - symmetry. apply nth_error_None. rewrite length_map, length_seq. lia.
Qed.

(** ** Backoff and Retry once more *)

Lemma pairs_before_S (g : Elems Duration) (k : nat) :
  pairs_before g (Datatypes.S k) = pairs_before g k ++ [(k, handle_at g k)].
Proof. unfold pairs_before. rewrite seq_S, map_app. reflexivity. Qed.

Section BackoffPairs.
Variable ctx : Context.
Variable l : list Duration.

Lemma recorded_pairs (S : Type) (yield : Yield2 S) :
  forall fuel i s w,
    (i <= List.length l)%nat ->
    (List.length l + 2 <= i + fuel)%nat ->
    exists m,
      (i <= m <= List.length l)%nat
      /\ fst (snd (final
           (range_from (with_sentinel (nth_error l)) i _
              (Backoff_body ctx (recording2 yield))
              (i, (pairs_before (nth_error l) i, s)) w fuel)))
         = pairs_before (nth_error l) (Datatypes.S m).
Proof.
  induction fuel as [|fuel IH]; intros i s w Hi Hfuel; [lia|].
  rewrite range_from_step.
  rewrite (with_sentinel_live (nth_error l) i) by (apply live_nth_error; exact Hi).
  unfold Backoff_body at 1, recording2 at 1.
  destruct (yield i (handle_at (nth_error l) i) s w) as [[[c nw'] s'] w'].
  rewrite <- pairs_before_S.
  destruct c; try (exists i; split; [lia | reflexivity]).
  destruct (nw' <? 0); [exists i; split; [lia | reflexivity]|].
  destruct (Done ctx i); [exists i; split; [lia | reflexivity]|].
  destruct (Nat.eq_dec i (List.length l)) as [->|Hne].
  - exists (List.length l). split; [lia|].
    destruct fuel as [|fuel]; [lia|]. rewrite range_from_step.
    assert (Hend : with_sentinel (nth_error l) (Datatypes.S (List.length l)) = None).
    { unfold with_sentinel. cbn [live].
      rewrite (proj2 (nth_error_None l (List.length l))) by lia.
      rewrite andb_false_r. reflexivity. }
    rewrite Hend. reflexivity.
  - destruct (IH (Datatypes.S i) s' (log (Wait nw') w') ltac:(lia) ltac:(lia))
      as (m & Hm & Heq).
    exists m. split; [lia | exact Heq].
Qed.

(** X11: over a finite sequence of length [n], whatever the loop body
    does and whether or not the context is cancelled, [Backoff] runs the
    body at least once and at most [n + 1] times, with the indexes 0, 1,
    2, ... in order, and every time with the duration that the sequence
    itself has at that index (the sentinel at index [n]): what the body
    wrote into an earlier handle does not show in a later one. *)
Theorem X11_backoff_pairs (seq : Seq Duration) (S : Type) (yield : Yield2 S)
    (s : S) (w : World) :
  yields_list seq l ->
  exists fuel0, forall fuel, (fuel0 <= fuel)%nat ->
    exists m,
      (m <= List.length l)%nat
      /\ status (Backoff ctx seq _ (recording2 yield) ([], s) w fuel) <> Starved
      /\ fst (final (Backoff ctx seq _ (recording2 yield) ([], s) w fuel))
         = pairs_before (nth_error l) (Datatypes.S m).
Proof.
  intros Hseq.
  pose proof (finite_ends l _ (Backoff_body ctx (recording2 yield))
                (List.length l + 2) O (O, ([], s)) w ltac:(lia) ltac:(lia)) as Hst.
  destruct (Backoff_range ctx seq (nth_error l) _ (recording2 yield)
              ([], s) w (List.length l + 2) Hseq Hst) as [fuel0 H0].
  destruct (recorded_pairs S yield (List.length l + 2) O s w ltac:(lia) ltac:(lia))
    as (m & Hm & Heq).
  exists fuel0. intros fuel Hle. exists m. rewrite (H0 fuel Hle).
  split; [lia|]. split; [exact Hst | exact Heq].
Qed.
End BackoffPairs.

Lemma X11_witness :
  yields_list (Limit 5 (Const Millisecond)) (repeat Millisecond 5)
  /\ exists fuel0, forall fuel, (fuel0 <= fuel)%nat ->
       exists m,
         (m <= 5)%nat
         /\ status (Backoff cancelled_at_2 (Limit 5 (Const Millisecond)) _
                      (recording2 watch) ([], []) World0 fuel) <> Starved
         /\ fst (final (Backoff cancelled_at_2 (Limit 5 (Const Millisecond)) _
                          (recording2 watch) ([], []) World0 fuel))
            = pairs_before (nth_error (repeat Millisecond 5)) (Datatypes.S m).
Proof.
  split; [exact five_milliseconds|].
  exact (X11_backoff_pairs cancelled_at_2 (repeat Millisecond 5)
           (Limit 5 (Const Millisecond)) _ watch [] World0 five_milliseconds).
Defined.

Section RetryAlways.
Context {T U : Type}.
Variable zero : T.
Variable ctx : Context.
Variable f : Op T U.
Variable g : Elems Duration.
Variable u : U.

Lemma first_stop (n : nat) :
  goes_on ctx f g u n = false ->
  exists k, (k <= n)%nat /\ goes_on ctx f g u k = false
            /\ forall j, (j < k)%nat -> goes_on ctx f g u j = true.
Proof.
  induction n as [|n IH]; intros Hn.
  - exists O. split; [lia|]. split; [exact Hn|]. intros j Hj. lia.
  - destruct (goes_on ctx f g u n) eqn:Hgo.
    + assert (Hall : forall m, (m <= Datatypes.S n)%nat ->
                (forall j, (j < m)%nat -> goes_on ctx f g u j = true)
                \/ exists k, (k < m)%nat /\ goes_on ctx f g u k = false
                     /\ forall j, (j < k)%nat -> goes_on ctx f g u j = true).
      { induction m as [|m IHm]; intros Hm.
        - left. intros j Hj. lia.
        - destruct (IHm ltac:(lia)) as [Hl|(k & Hk & Hs & Hb)].
          + destruct (goes_on ctx f g u m) eqn:Hgm.
            * left. intros j Hj.
              destruct (Nat.eq_dec j m) as [->|]; [exact Hgm | apply Hl; lia].
            * right. exists m. split; [lia|]. split; [exact Hgm | exact Hl].
          + right. exists k. split; [lia|]. split; assumption. }
      destruct (Hall (Datatypes.S n) (le_n _)) as [Hl|(k & Hk & Hs & Hb)].
      * exists (Datatypes.S n). split; [lia|]. split; [exact Hn | exact Hl].
      * exists k. split; [lia|]. split; assumption.
    + destruct (IH eq_refl) as (k & Hk & Hs & Hb).
      exists k. split; [lia|]. split; assumption.
Qed.

(** X13: cancellation never comes back as an error of its own.  When the
    select of iteration [k] is the first that the context interrupts (the
    iterations before it led to a next one), [Retry1] returns the values
    and the error of the call of iteration [k], the operation's own,
    after [k + 1] invocations and [k] completed waits. *)
Theorem X13_cancelled_during_a_wait (seq : Seq Duration) (k : nat) (w : World) :
  yields seq g ->
  (forall j, (j < k)%nat -> goes_on ctx f g u j = true) ->
  Done ctx k = true ->
  (exists fuel0, forall fuel, (fuel0 <= fuel)%nat ->
     Retry1 zero ctx seq (counting f) (O, u) w fuel
     = mkResult Returned
         (value (attempt f g u k), err (attempt f g u k),
          (Datatypes.S k, captured (attempt f g u k)))
         (logs (waits f g u k ++ interrupted_after (attempt f g u k)) w))
  /\ List.length (waits f g u k) = k.
Proof.
  intros Hseq Hgo Hdone. split; [|apply waits_length].
  destruct (stops_done ctx f g u k Hdone) as [Hstop Hlast].
  rewrite <- Hlast. apply Retry1_run_counting; assumption.
Qed.

(** X14: when the sequence is exhausted at iteration [k] and the
    operation, failing transiently, replaces the sentinel in the handle by
    a duration that is not negative, the driver still waits for that
    duration after this last invocation and only then returns: [k + 1]
    invocations and [k + 1] waits, no further invocation. *)
Theorem X14_wait_after_the_last_invocation (seq : Seq Duration) (k : nat)
    (w : World) :
  yields seq g ->
  (forall j, (j < k)%nat -> goes_on ctx f g u j = true) ->
  g k = None ->
  transient (err (attempt f g u k)) = true ->
  0 <= next_wait (attempt f g u k) ->
  Done ctx k = false ->
  (exists fuel0, forall fuel, (fuel0 <= fuel)%nat ->
     Retry1 zero ctx seq (counting f) (O, u) w fuel
     = mkResult Returned
         (value (attempt f g u k), err (attempt f g u k),
          (Datatypes.S k, captured (attempt f g u k)))
         (logs (waits f g u (Datatypes.S k)) w))
  /\ List.length (waits f g u (Datatypes.S k)) = Datatypes.S k.
Proof.
  intros Hseq Hgo Hend Htr Hnw Hdone. split; [|apply waits_length].
  rewrite waits_S.
  replace [Wait (next_wait (attempt f g u k))] with (last_event ctx f g u k).
  - apply Retry1_run_counting; try assumption. apply stops_exhausted, Hend.
  - unfold last_event. rewrite Htr, Hdone.
    destruct (Z.leb_spec 0 (next_wait (attempt f g u k))); [reflexivity|lia].
Qed.
End RetryAlways.

Lemma completed_waits_app (tr tr' : list Event) :
  completed_waits (tr ++ tr') = (completed_waits tr + completed_waits tr')%nat.
Proof. unfold completed_waits. rewrite filter_app, length_app. reflexivity. Qed.

Lemma completed_waits_waits {T U : Type} (f : Op T U) (g : Elems Duration)
    (u : U) (k : nat) :
  completed_waits (waits f g u k) = k.
Proof.
  induction k as [|k IH]; [reflexivity|].
  rewrite waits_S, completed_waits_app, IH. unfold completed_waits. simpl. lia.
Qed.

(** X12: over a finite sequence of length [n], for every operation and
    every context, [Retry1] returns: it invokes the operation at least
    once and at most [n + 1] times and returns the values and the error of
    the last invocation (so never the zero value of [T]).  With [k + 1]
    invocations it has completed [k] waits, one between two invocations,
    or [k + 1]: one more, after the last invocation, only when the
    sequence was exhausted and the operation, failing transiently,
    replaced the sentinel by a duration that is not negative. *)
Theorem X12_retry_returns_the_last_call {T U : Type} (zero : T)
    (ctx : Context) (f : Op T U) (u : U) (seq : Seq Duration)
    (l : list Duration) (w : World) :
  yields_list seq l ->
  exists k tr,
    (k <= List.length l)%nat
    /\ (exists fuel0, forall fuel, (fuel0 <= fuel)%nat ->
         Retry1 zero ctx seq (counting f) (O, u) w fuel
         = mkResult Returned
             (value (attempt f (nth_error l) u k),
              err (attempt f (nth_error l) u k),
              (Datatypes.S k, captured (attempt f (nth_error l) u k)))
             (logs tr w))
    /\ (completed_waits tr = k
        \/ (completed_waits tr = Datatypes.S k
            /\ k = List.length l
            /\ transient (err (attempt f (nth_error l) u k)) = true
            /\ 0 <= next_wait (attempt f (nth_error l) u k))).
Proof.
  intros Hseq.
  destruct (first_stop ctx f (nth_error l) u (List.length l))
    as (k & Hk & Hstop & Hgo).
  { apply stops_exhausted. apply nth_error_None. lia. }
  exists k.
  exists (waits f (nth_error l) u k ++ last_event ctx f (nth_error l) u k).
  split; [exact Hk|]. split; [apply Retry1_run_counting; assumption|].
  rewrite completed_waits_app, completed_waits_waits.
  unfold last_event. unfold goes_on in Hstop.
  destruct (transient (err (attempt f (nth_error l) u k))) eqn:Htr;
    [|left; unfold completed_waits; simpl; lia].
  destruct (Z.leb_spec 0 (next_wait (attempt f (nth_error l) u k)))
    as [Hnw|Hnw]; [|left; unfold completed_waits; simpl; lia].
  simpl andb. cbv iota.
  destruct (Done ctx k) eqn:Hdone; [left; unfold completed_waits; simpl; lia|].
  right. split; [unfold completed_waits; simpl; lia|].
  split; [|split; [reflexivity | exact Hnw]].
  destruct (nth_error l k) eqn:Hn; [simpl in Hstop; discriminate|].
  apply nth_error_None in Hn. lia.
Qed.

Lemma X12_witness :
  yields_list (Limit 5 (Const Millisecond)) (repeat Millisecond 5)
  /\ exists k,
       (k <= 5)%nat
       /\ exists fuel0, forall fuel, (fuel0 <= fuel)%nat ->
            status (Retry1 0 cancelled_at_2 (Limit 5 (Const Millisecond))
                      (counting succeeds_at_3) (O, tt) World0 fuel)
            = Returned.
Proof.
  split; [exact five_milliseconds|].
  destruct (X12_retry_returns_the_last_call 0 cancelled_at_2 succeeds_at_3
              tt (Limit 5 (Const Millisecond)) (repeat Millisecond 5) World0
              five_milliseconds) as (k & tr & Hk & (fuel0 & H0) & _).
  exists k. split; [exact Hk|]. exists fuel0. intros fuel Hle.
  rewrite (H0 fuel Hle). reflexivity.
Defined.

Lemma X13_witness :
  yields (Const 4) (fun _ => Some 4)
  /\ (forall j, (j < 2)%nat ->
        goes_on cancelled_at_2 always_failing (fun _ => Some 4) tt j = true)
  /\ Done cancelled_at_2 2 = true
  /\ exists fuel0, forall fuel, (fuel0 <= fuel)%nat ->
       Retry1 tt cancelled_at_2 (Const 4) (counting always_failing) (O, tt)
         World0 fuel
       = mkResult Returned (tt, spurious, (3%nat, tt))
           {| trace := [Wait 4; Wait 4; Interrupted 4] |}.
Proof.
  assert (Hgo : forall j, (j < 2)%nat ->
            goes_on cancelled_at_2 always_failing (fun _ => Some 4) tt j = true).
  { intros j Hj. destruct j as [|[|j]]; try reflexivity. lia. }
  split; [apply Const_yields|]. split; [exact Hgo|]. split; [reflexivity|].
  exact (proj1 (X13_cancelled_during_a_wait tt cancelled_at_2 always_failing
                  (fun _ => Some 4) tt (Const 4) 2 World0 (Const_yields 4)
                  Hgo eq_refl)).
Defined.

Lemma X14_witness :
  yields (Values [1; 2]) (nth_error [1; 2])
  /\ (forall j, (j < 2)%nat ->
        goes_on Background override_at_2 (nth_error [1; 2]) tt j = true)
  /\ nth_error [1; 2] 2 = None
  /\ transient (err (attempt override_at_2 (nth_error [1; 2]) tt 2)) = true
  /\ 0 <= next_wait (attempt override_at_2 (nth_error [1; 2]) tt 2)
  /\ Done Background 2 = false
  /\ exists fuel0, forall fuel, (fuel0 <= fuel)%nat ->
       Retry1 tt Background (Values [1; 2]) (counting override_at_2) (O, tt)
         World0 fuel
       = mkResult Returned (tt, spurious, (3%nat, tt))
           {| trace := [Wait 1; Wait 2; Wait 7] |}.
Proof.
  assert (Hgo : forall j, (j < 2)%nat ->
            goes_on Background override_at_2 (nth_error [1; 2]) tt j = true).
  { intros j Hj. destruct j as [|[|j]]; try reflexivity. lia. }
  split; [apply Values_yields|]. split; [exact Hgo|].
  split; [reflexivity|]. split; [reflexivity|].
  split; [vm_compute; discriminate|]. split; [reflexivity|].
  exact (proj1 (X14_wait_after_the_last_invocation tt Background override_at_2
                  (nth_error [1; 2]) tt (Values [1; 2]) 2 World0
                  (Values_yields _) Hgo eq_refl eq_refl
                  ltac:(vm_compute; discriminate) eq_refl)).
Defined.

(** ** Retry over a jittered sequence *)

Lemma waits_without_override {U : Type} (ctx : Context) (f : Op unit U)
    (l : list Duration) (u : U) :
  (forall i nw u, next_wait (f i nw u) = nw) ->
  waits f (nth_error l) u (List.length l) = map Wait l
  /\ last_event ctx f (nth_error l) u (List.length l) = [].
Proof.
  intros Hkeep. split.
  - unfold waits.
    rewrite (map_ext _ (fun j => Wait (handle_at (nth_error l) j)))
      by (intros j; unfold attempt; rewrite Hkeep; reflexivity).
    apply map_handle_at.
  - apply (stops_negative ctx f (nth_error l) u (List.length l)).
    unfold attempt. rewrite Hkeep, handle_at_end. reflexivity.
Qed.

Section JitteredRetry.
Variable randN : nat -> Z -> Z.
Hypothesis randN_range : forall k n, 0 < n -> 0 <= randN k n < n.

Lemma nth_error_jitter_list (l : list Duration) :
  forall k i,
    nth_error (jitter_list randN k l) i
    = option_map (randN (k + i)) (nth_error l i).
Proof.
  induction l as [|d l IH]; intros k i.
  - destruct i; reflexivity.
  - destruct i as [|i]; simpl.
    + rewrite Nat.add_0_r. reflexivity.
    + rewrite IH. rewrite Nat.add_succ_r. reflexivity.
Qed.

Lemma jitter_list_range (l : list Duration) :
  (forall d, In d l -> 0 < d) ->
  forall k, Forall2 (fun d x => 0 <= x < d) l (jitter_list randN k l).
Proof.
  induction l as [|d l IH]; intros Hpos k; simpl; constructor.
  - apply randN_range. apply Hpos. left. reflexivity.
  - apply IH. intros d' Hd'. apply Hpos. right. exact Hd'.
Qed.

(** X15: the sequences compose with the driver.  For a finite sequence of
    [n] positive durations under [Jitter], an operation that always fails
    transiently without touching the handle and a context that is not
    cancelled, [Retry0] invokes the operation [n + 1] times and waits [n]
    times, the [i]-th wait being a sample of [[0, d_i)] for the [i]-th
    duration [d_i] of the sequence. *)
Theorem X15_retry_over_a_jittered_sequence {U : Type} (ctx : Context)
    (seq : Seq Duration) (l : list Duration) (f : Op unit U) (u : U)
    (w : World) :
  yields_list seq l ->
  (forall d, In d l -> 0 < d) ->
  (forall i, Done ctx i = false) ->
  (forall i nw u, transient (err (f i nw u)) = true) ->
  (forall i nw u, next_wait (f i nw u) = nw) ->
  (exists fuel0, forall fuel, (fuel0 <= fuel)%nat ->
     let a := attempt f (nth_error (jitter_list randN O l)) u (List.length l) in
     Retry0 ctx (Jitter randN seq) (counting f) (O, u) w fuel
     = mkResult Returned (err a, (Datatypes.S (List.length l), captured a))
         (logs (map Wait (jitter_list randN O l)) w))
  /\ Forall2 (fun d x => 0 <= x < d) l (jitter_list randN O l).
Proof.
  intros Hseq Hpos Hbg Hfail Hkeep.
  pose proof (jitter_list_range l Hpos O) as Hrange.
  split; [|exact Hrange].
  assert (Hlen : List.length (jitter_list randN O l) = List.length l)
    by (symmetry; eapply Forall2_length; exact Hrange).
  assert (Hj : yields_list (Jitter randN seq) (jitter_list randN O l)).
  { apply (yields_ext _ (jittered randN (nth_error l))).
    - apply Jitter_yields; [exact Hseq|].
      intros i d Hd. apply Hpos. eapply nth_error_In. exact Hd.
    - intros i. rewrite nth_error_jitter_list. reflexivity. }
  destruct (always_failing_run ctx (Jitter randN seq) (jitter_list randN O l) f
              Hj) with (u := u) (w := w) as [fuel0 H0].
  - intros x Hx. apply In_nth_error in Hx. destruct Hx as [i Hi].
    rewrite nth_error_jitter_list in Hi.
    destruct (nth_error l i) as [d|] eqn:Hd; [|discriminate].
    injection Hi as <-.
    pose proof (randN_range i d (Hpos d (nth_error_In l i Hd))).
    cbn [Nat.add]. lia.
  - exact Hbg.
  - exact Hfail.
  - intros i nw u0 Hnw. rewrite Hkeep. exact Hnw.
  - exists fuel0. intros fuel Hle. cbv zeta. rewrite (H0 fuel Hle).
    destruct (waits_without_override ctx f (jitter_list randN O l) u Hkeep)
      as [Hw Hl].
    rewrite Hw, Hl, app_nil_r, Hlen. reflexivity.
Qed.
End JitteredRetry.

Lemma X15_witness :
  (forall k n, 0 < n -> 0 <= modulo_source k n < n)
  /\ yields_list (Limit 3 (Const 10)) (repeat 10 3)
  /\ (forall d, In d (repeat 10 3) -> 0 < d)
  /\ (forall i, Done Background i = false)
  /\ (forall i nw u, transient (err (always_failing i nw u)) = true)
  /\ (forall i nw u, next_wait (always_failing i nw u) = nw)
  /\ exists fuel0, forall fuel, (fuel0 <= fuel)%nat ->
       Retry0 Background (Jitter modulo_source (Limit 3 (Const 10)))
         (counting always_failing) (O, tt) World0 fuel
       = mkResult Returned (spurious, (4%nat, tt))
           {| trace := [Wait 0; Wait 1; Wait 2] |}.
Proof.
  assert (Hpos : forall d, In d (repeat 10 3) -> 0 < d).
  { intros d H. apply repeat_spec in H. subst d. lia. }
  split; [exact modulo_source_range|].
  split; [exact (Limit_Const_yields 3 10)|]. split; [exact Hpos|].
  split; [reflexivity|]. split; [reflexivity|]. split; [reflexivity|].
  exact (proj1 (X15_retry_over_a_jittered_sequence modulo_source
                  modulo_source_range Background (Limit 3 (Const 10))
                  (repeat 10 3) always_failing tt World0
                  (Limit_Const_yields 3 10) Hpos (fun _ => eq_refl)
                  (fun _ _ _ => eq_refl) (fun _ _ _ => eq_refl))).
Defined.

(** ** appendSentiel once more *)

Lemma with_sentinel_forever (g : Elems Duration) (i : nat) :
  forever g -> with_sentinel g i = g i.
Proof.
  intros Hf. unfold with_sentinel.
  rewrite (live_below g i (fun j _ => Hf j)).
  destruct (g i) eqn:Hg; [reflexivity|]. exfalso. exact (Hf i Hg).
Qed.

Lemma with_sentinel_list (l : list Duration) (i : nat) :
  with_sentinel (nth_error l) i = nth_error (l ++ [SentinelDuration]) i.
Proof.
  destruct (Nat.lt_trichotomy i (List.length l)) as [Hlt|[->|Hgt]].
  - destruct (nth_error l i) as [x|] eqn:Hx;
      [|apply nth_error_None in Hx; lia].
    rewrite (with_sentinel_in l i x Hx), nth_error_app1 by exact Hlt.
    symmetry. exact Hx.
  - rewrite with_sentinel_at_end, nth_error_app2 by lia.
    rewrite Nat.sub_diag. reflexivity.
  - destruct (with_sentinel (nth_error l) i) as [x|] eqn:Hx.
    + destruct (with_sentinel_below l i x Hx) as [Hn|[Hn _]]; [|lia].
      assert (i < List.length l)%nat by (apply nth_error_Some; congruence). lia.
    + symmetry. apply nth_error_None. rewrite length_app. simpl. lia.
Qed.

(** X16: [appendSentiel] adds the sentinel exactly once and only at the
    end: over a finite sequence with the elements [l] it yields [l] and
    then [SentinelDuration]; over a sequence that never ends it yields
    what the sequence yields and never the sentinel. *)
Theorem X16_appendSentiel_adds_one_sentinel (seq : Seq Duration)
    (g : Elems Duration) :
  yields seq g ->
  (forall l, (forall i, g i = nth_error l i) ->
     yields_list (appendSentiel seq) (l ++ [SentinelDuration]))
  /\ (forever g -> yields (appendSentiel seq) g).
Proof.
  intros Hseq. split.
  - intros l Hl.
    apply (yields_ext _ (with_sentinel (nth_error l))).
    + apply appendSentiel_yields. apply (yields_ext _ g); assumption.
    + apply with_sentinel_list.
  - intros Hf. apply (yields_ext _ (with_sentinel g)).
    + apply appendSentiel_yields. exact Hseq.
    + intros i. apply with_sentinel_forever. exact Hf.
Qed.

Lemma X16_witness :
  yields (Values [1; 2]) (nth_error [1; 2])
  /\ yields_list (appendSentiel (Values [1; 2])) ([1; 2] ++ [SentinelDuration]).
Proof.
  split; [apply Values_yields|].
  exact (proj1 (X16_appendSentiel_adds_one_sentinel (Values [1; 2])
                  (nth_error [1; 2]) (Values_yields _))
           [1; 2] (fun _ => eq_refl)).
Defined.
